(** * rules_server: the rule tree evaluator of [rules_server/models.py]

    A shallow embedding of the Django models [Ruleset], [Node], [Rule] and
    [SyntaxSchema], with the properties the specification states about them.

    Conventions.
    - A Python [dict] is an association list in insertion order with unique
      keys (module [PyDict]): assignment to a present key keeps its position,
      assignment to a new key appends.
    - Python exceptions are values of [Py.exn]; a computation that may raise
      has type [Py.res A].
    - The database cursor, the helper [utils.values_from_json] and the
      builtin [int] are parameters of the definitions that call them. *)

From Stdlib Require Import String Ascii List ZArith Bool Arith Lia.
Import ListNotations.
Open Scope string_scope.
Open Scope list_scope.

Set Implicit Arguments.
Set Warnings "-register-all".

(* ================================================================== *)
(** ** Python values that may raise *)

Module Py.

(** The exception classes the modelled code can raise. *)
Inductive exn : Type :=
| KeyError (key : string)
| TypeError (msg : string)
| ValueError (msg : string)
| IndexError
| AttributeError (msg : string)
| RecursionError
| DataError (msg : string)
| Unsupported (what : string).

Inductive res (A : Type) : Type :=
| OK (a : A)
| Raise (e : exn).

Arguments OK {A} a.
Arguments Raise {A} e.

Definition bind {A B : Type} (m : res A) (k : A -> res B) : res B :=
  match m with
  | OK a => k a
  | Raise e => Raise e
  end.

Definition fmap {A B : Type} (f : A -> B) (m : res A) : res B :=
  bind m (fun a => OK (f a)).

(** Evaluate [f] on every element, left to right, stopping at the first
    exception. *)
Fixpoint mapM {A B : Type} (f : A -> res B) (l : list A) : res (list B) :=
  match l with
  | [] => OK []
  | x :: l' =>
      bind (f x) (fun y => bind (mapM f l') (fun ys => OK (y :: ys)))
  end.

(** The first exception of a sequence of outcomes, if there is one. *)
Fixpoint first_error {A : Type} (l : list (res A)) : option exn :=
  match l with
  | [] => None
  | OK _ :: l' => first_error l'
  | Raise e :: _ => Some e
  end.

(** The exception of an outcome, if it is one. *)
Definition error_of {A : Type} (m : res A) : option exn :=
  match m with
  | OK _ => None
  | Raise e => Some e
  end.

(** A generator run to its end: the values it yields and the exception
    that stops it, if one does. *)
Definition gen (A : Type) : Type := (list A * option exn)%type.

(** Run [g1], then, unless it raised, [g2]. *)
Definition gen_app {A : Type} (g1 g2 : gen A) : gen A :=
  match snd g1 with
  | Some e => g1
  | None => (fst g1 ++ fst g2, snd g2)
  end.

Definition gen_concat {A : Type} (gs : list (gen A)) : gen A :=
  fold_right gen_app ([], None) gs.

(** The generator that yields the value of [m], or raises. *)
Definition gen_of_res {A : Type} (m : res A) : gen A :=
  match m with
  | OK a => ([a], None)
  | Raise e => ([], Some e)
  end.

End Py.

Import Py.

Declare Scope py_scope.
Delimit Scope py_scope with py.
Notation "x <- m ;; k" := (Py.bind m (fun x => k))
  (at level 61, m at next level, right associativity) : py_scope.
Notation "' p <- m ;; k" := (Py.bind m (fun x => match x with p => k end))
  (at level 61, p pattern, m at next level, right associativity) : py_scope.
Open Scope py_scope.

(* ================================================================== *)
(** ** Python dictionaries *)

Module PyDict.
Section WithKey.
Variable K : Type.
Variable eqb : K -> K -> bool.
Variable V : Type.

Definition t : Type := list (K * V).

Definition empty : t := [].

Definition items (d : t) : list (K * V) := d.

Definition keys (d : t) : list K := map fst d.

Definition values (d : t) : list V := map snd d.

(** [d.get(k)] *)
Fixpoint get (k : K) (d : t) : option V :=
  match d with
  | [] => None
  | (k', v) :: d' => if eqb k k' then Some v else get k d'
  end.

(** [k in d] *)
Definition mem (k : K) (d : t) : bool :=
  match get k d with Some _ => true | None => false end.

(** [d[k] = v] *)
Fixpoint set (k : K) (v : V) (d : t) : t :=
  match d with
  | [] => [(k, v)]
  | (k', v') :: d' =>
      if eqb k k' then (k', v) :: d' else (k', v') :: set k v d'
  end.

(** The dictionary left by [d.pop(k)] or [del d[k]]. *)
Fixpoint remove (k : K) (d : t) : t :=
  match d with
  | [] => []
  | (k', v') :: d' =>
      if eqb k k' then d' else (k', v') :: remove k d'
  end.

(** [d.update(other)] *)
Definition update (d other : t) : t :=
  fold_left (fun acc kv => set (fst kv) (snd kv) acc) other d.

Fixpoint nodupb (l : list K) : bool :=
  match l with
  | [] => true
  | k :: l' => negb (existsb (eqb k) l') && nodupb l'
  end.

(** A dictionary holds each key once. *)
Definition wf (d : t) : Prop := nodupb (keys d) = true.

End WithKey.
End PyDict.

(** Dictionaries keyed by [str]. *)
Definition sdict (V : Type) : Type := PyDict.t string V.
Definition sget {V} (k : string) (d : sdict V) : option V :=
  PyDict.get String.eqb k d.
Definition smem {V} (k : string) (d : sdict V) : bool :=
  PyDict.mem String.eqb k d.
Definition sset {V} (k : string) (v : V) (d : sdict V) : sdict V :=
  PyDict.set String.eqb k v d.
Definition sremove {V} (k : string) (d : sdict V) : sdict V :=
  PyDict.remove String.eqb k d.
Definition supdate {V} (d other : sdict V) : sdict V :=
  PyDict.update String.eqb d other.
Definition swf {V} (d : sdict V) : Prop := PyDict.wf String.eqb d.

(* ================================================================== *)
(** ** JSON documents (payloads, schemas) *)

(** Numbers are the integers; no fraction occurs in what follows. *)

Inductive JSON : Type :=
| JNull
| JBool (b : bool)
| JNum (z : Z)
| JStr (s : string)
| JList (l : list JSON)
| JObj (d : list (string * JSON)).

(** [v == s] for a string constant [s]. *)
Definition json_is_str (v : JSON) (s : string) : bool :=
  match v with
  | JStr t => String.eqb t s
  | _ => false
  end.

(** Python truth value of a decoded JSON document. *)
Definition json_truthy (v : JSON) : bool :=
  match v with
  | JNull => false
  | JBool b => b
  | JNum z => negb (Z.eqb z 0)
  | JStr s => negb (String.eqb s EmptyString)
  | JList l => match l with [] => false | _ => true end
  | JObj d => match d with [] => false | _ => true end
  end.

(* ================================================================== *)
(** ** Strings: [%] formatting, [replace], [join] *)

Module Str.

Definition nl : string := String (ascii_of_nat 10) EmptyString.

(** [sep.join(l)] *)
Fixpoint join (sep : string) (l : list string) : string :=
  match l with
  | [] => EmptyString
  | [s] => s
  | s :: l' => s ++ sep ++ join sep l'
  end.

(** [s.replace("%s", "'%s'")]: every occurrence of the placeholder, left
    to right, is wrapped in single quotes. *)
Fixpoint quote_placeholders (s : string) : string :=
  match s with
  | EmptyString => EmptyString
  | String c rest =>
      match c, rest with
      | "%"%char, String "s"%char rest' =>
          "'%s'" ++ quote_placeholders rest'
      | _, _ => String c (quote_placeholders rest)
      end
  end.

(** [template % args] for a tuple [args] of strings.  The conversions
    modelled are [%s] (the next argument, as text) and [%%] (a percent
    sign); on any other conversion the model stops with [Unsupported].
    Too few arguments and left-over arguments are [TypeError]s, as in
    Python. *)
Fixpoint format (template : string) (args : list string) : res string :=
  match template with
  | EmptyString =>
      match args with
      | [] => OK EmptyString
      | _ :: _ =>
          Raise (TypeError
                   "not all arguments converted during string formatting")
      end
  | String c rest =>
      match c, rest with
      | "%"%char, String "s"%char rest' =>
          match args with
          | [] => Raise (TypeError "not enough arguments for format string")
          | a :: args' => Py.fmap (append a) (format rest' args')
          end
      | "%"%char, String "%"%char rest' =>
          Py.fmap (String "%"%char) (format rest' args)
      | "%"%char, _ => Raise (Unsupported "format conversion")
      | _, _ => Py.fmap (String c) (format rest args)
      end
  end.

(** No percent sign occurs in [s]. *)
Fixpoint no_percent (s : string) : bool :=
  match s with
  | EmptyString => true
  | String c rest => negb (Ascii.eqb c "%"%char) && no_percent rest
  end.

End Str.

(* ================================================================== *)
(** ** Findings: the result dictionaries of [Rule.calc] and [Node.calc] *)

(** A [datetime.date] as fetched from a [date] column. *)
Definition date : Type := (Z * Z * Z)%type.

Module Limitation.
(** The dictionary with the keys [end_date], [normal], [description] and
    [explanation] built from the last four columns of a row. *)
Record t : Type := Make {
  end_date : option date;
  normal : option bool;
  description : option string;
  explanation : option string
}.
End Limitation.

(** Values found under the key [explanation]: the text of a rule, or the
    list a node collects. *)
Inductive Explanation : Type :=
| ExplText (s : string)
| ExplList (l : list Explanation).

(** Values found under the key [limitation]: [None] or the limitation of a
    rule, or the list a node collects. *)
Inductive LimitationValue : Type :=
| LimNone
| LimRecord (r : Limitation.t)
| LimList (l : list LimitationValue).

Module Finding.

Inductive t : Type :=
| OfRule (eligible : bool) (explanation : string)
         (limitation : option Limitation.t)
| OfNode (eligible : bool) (explanation : list Explanation)
         (limitation : list LimitationValue)
         (subfindings : list (string * t)).

(** [f['eligible']] *)
Definition eligible (f : t) : bool :=
  match f with
  | OfRule e _ _ => e
  | OfNode e _ _ _ => e
  end.

(** [f['explanation']] *)
Definition explanation (f : t) : Explanation :=
  match f with
  | OfRule _ x _ => ExplText x
  | OfNode _ xs _ _ => ExplList xs
  end.

(** [f['limitation']] *)
Definition limitation (f : t) : LimitationValue :=
  match f with
  | OfRule _ _ None => LimNone
  | OfRule _ _ (Some r) => LimRecord r
  | OfNode _ _ ls _ => LimList ls
  end.

(** [f.get('subfindings', {})] *)
Definition subfindings (f : t) : sdict t :=
  match f with
  | OfRule _ _ _ => []
  | OfNode _ _ _ subs => subs
  end.

(** Python truth value of a limitation: [None] and the empty list are
    false, a limitation dictionary (four keys) and a non-empty list are
    true. *)
Definition limitation_truthy (l : LimitationValue) : bool :=
  match l with
  | LimNone => false
  | LimRecord _ => true
  | LimList [] => false
  | LimList (_ :: _) => true
  end.

End Finding.

(* ================================================================== *)
(** ** Rule *)

Module Rule.

Record t : Type := Make {
  name : string;
  code : string
}.

(** The six columns selected by [_SQL], typed as the composite result type
    declares them. *)
Record Row : Type := MakeRow {
  row_eligible : bool;
  row_explanation : string;
  row_end_date : option date;
  row_normal : option bool;
  row_description : option string;
  row_limitation_explanation : option string
}.

(** What [cursor.execute(sql, params)] followed by [cursor.fetchone()]
    does: [execute] raises an exception with text [cause], or the query
    has no row ([fetchone] gives [None]), or a row is fetched. *)
Inductive Outcome : Type :=
| Failed (cause : string)
| NoRow
| Fetched (r : Row).

Definition sql_head : string := "with source as (".

Definition sql_tail : string :=
  ")" ++ Str.nl ++
  "              select (source.result).eligible," ++ Str.nl ++
  "                     (source.result).explanation," ++ Str.nl ++
  "                     ((source.result).limitation).end_date," ++ Str.nl ++
  "                     ((source.result).limitation).normal," ++ Str.nl ++
  "                     ((source.result).limitation).description," ++ Str.nl ++
  "                     ((source.result).limitation).explanation AS limitation_explanation" ++ Str.nl ++
  "              from source".

Definition _SQL : string := sql_head ++ "%s %s" ++ sql_tail.

(** [self._SQL % (source_clause, self.code)] *)
Definition statement (r : t) (source_clause : string) : res string :=
  Str.format _SQL [source_clause; code r].

(** The text that formatting produces. *)
Definition statement_text (r : t) (source_clause : string) : string :=
  sql_head ++ source_clause ++ " " ++ code r ++ sql_tail.

(** Python truth value of an optional text. *)
Definition text_truthy (s : option string) : bool :=
  match s with
  | None => false
  | Some x => negb (String.eqb x EmptyString)
  end.

(** Python truth value of an optional date: a date object is always
    true. *)
Definition date_truthy (d : option date) : bool :=
  match d with
  | None => false
  | Some _ => true
  end.

(** The limitation dictionary zipped from [findings[2:]]. *)
Definition limitation_of_row (row : Row) : Limitation.t :=
  Limitation.Make (row_end_date row) (row_normal row)
                  (row_description row) (row_limitation_explanation row).

(** The message of the [DataError] raised when execution fails. *)
Definition error_message (r : t) (cause sql : string) : string :=
  ("Error executing rule " ++ name r ++ Str.nl) ++ cause ++
  (Str.nl ++ Str.nl ++ " in sql:" ++ Str.nl ++ Str.nl) ++ sql.

Section WithCursor.
Variable execute : string -> list string -> Outcome.

Definition calc (r : t) (source_clause : string)
           (source_data : list string) : res Finding.t :=
  sql <- statement r source_clause ;;
  match execute sql source_data with
  | Failed cause => Raise (DataError (error_message r cause sql))
  | NoRow => Raise (TypeError "'NoneType' object is not subscriptable")
  | Fetched findings =>
      let limitation := limitation_of_row findings in
      let limitation :=
        if negb (date_truthy (Limitation.end_date limitation))
           && negb (text_truthy (Limitation.description limitation))
        then None
        else Some limitation in
      OK (Finding.OfRule (row_eligible findings)
                         (row_explanation findings)
                         limitation)
  end.
End WithCursor.

(** [Rule.sql]: the statement with each placeholder quoted and the bound
    values substituted by [%]. *)
Definition sql (r : t) (source_clause : string)
           (source_data : list string) : res string :=
  result <- statement r source_clause ;;
  let result := Str.quote_placeholders result in
  Str.format result source_data.

End Rule.

(* ================================================================== *)
(** ** Node *)

Module Node.

(** A node with the rows of [node_set.all()] (its child nodes) and of
    [rule_set.all()] (its own rules), in the order the queries return
    them. *)
Inductive t : Type :=
| Make (name : string) (requires_all : bool)
       (node_set : list t) (rule_set : list Rule.t).

Definition name (n : t) : string :=
  match n with Make x _ _ _ => x end.
Definition requires_all (n : t) : bool :=
  match n with Make _ b _ _ => b end.
Definition node_set (n : t) : list t :=
  match n with Make _ _ cs _ => cs end.
Definition rule_set (n : t) : list Rule.t :=
  match n with Make _ _ _ rs => rs end.

(** The local variables [eligibility] and [node_result] of [calc]. *)
Record frame : Type := Frame {
  eligibility : bool;
  limitation : list LimitationValue;
  explanation : list Explanation;
  subfindings : sdict Finding.t
}.

Definition initial (requires_all : bool) : frame :=
  Frame (if requires_all then true else false) [] [] [].

(** Body of the loop over child nodes, after the recursive call. *)
Definition absorb_child (requires_all : bool) (child_name : string)
           (child_node_result : Finding.t) (fr : frame) : frame :=
  let eligibility :=
    if requires_all
    then eligibility fr && Finding.eligible child_node_result
    else eligibility fr || Finding.eligible child_node_result in
  let explanation :=
    explanation fr ++ [Finding.explanation child_node_result] in
  let limitation :=
    if Finding.eligible child_node_result
       && Finding.limitation_truthy (Finding.limitation child_node_result)
    then limitation fr ++ [Finding.limitation child_node_result]
    else limitation fr in
  let subfindings := sset child_name child_node_result (subfindings fr) in
  Frame eligibility limitation explanation subfindings.

(** Body of the loop over rules, after the call of [rule.calc]. *)
Definition absorb_rule (requires_all : bool) (rule_name : string)
           (rule_result : Finding.t) (fr : frame) : frame :=
  let explanation :=
    explanation fr ++ [Finding.explanation rule_result] in
  let eligibility :=
    if requires_all
    then eligibility fr && Finding.eligible rule_result
    else eligibility fr || Finding.eligible rule_result in
  let limitation :=
    if Finding.eligible rule_result
       && Finding.limitation_truthy (Finding.limitation rule_result)
    then limitation fr ++ [Finding.limitation rule_result]
    else limitation fr in
  let subfindings := sset rule_name rule_result (subfindings fr) in
  Frame eligibility limitation explanation subfindings.

(** The loop bodies applied to a sequence of named findings. *)
Definition absorb_all (requires_all : bool)
           (named : list (string * Finding.t)) (fr : frame) : frame :=
  fold_left (fun fr nf => absorb_child requires_all (fst nf) (snd nf) fr)
            named fr.

(** The frame a node ends with, from the findings of its child nodes and
    of its rules. *)
Definition final_frame (n : t) (cfs rfs : list Finding.t) : frame :=
  absorb_all (requires_all n)
    (combine (map name (node_set n)) cfs ++
     combine (map Rule.name (rule_set n)) rfs)
    (initial (requires_all n)).

Section WithCursor.
Variable execute : string -> list string -> Rule.Outcome.
Variable source_clause : string.
Variable source_data : list string.

(** [for rule in self.rule_set.all(): ...] *)
Fixpoint rules_loop (requires_all : bool) (rules : list Rule.t)
         (fr : frame) : res frame :=
  match rules with
  | [] => OK fr
  | rule :: rules' =>
      rule_result <- Rule.calc execute rule source_clause source_data ;;
      rules_loop requires_all rules'
                 (absorb_rule requires_all (Rule.name rule) rule_result fr)
  end.

Fixpoint calc (n : t) : res Finding.t :=
  match n with
  | Make _ requires_all children rules =>
      let fix children_loop (l : list t) (fr : frame) : res frame :=
        match l with
        | [] => OK fr
        | child_node :: l' =>
            child_node_result <- calc child_node ;;
            children_loop l'
              (absorb_child requires_all (name child_node)
                            child_node_result fr)
        end in
      fr <- children_loop children (initial requires_all) ;;
      fr <- rules_loop requires_all rules fr ;;
      OK (Finding.OfNode (eligibility fr) (explanation fr)
                         (limitation fr) (subfindings fr))
  end.

(** The loop over child nodes, as a function of its own. *)
Fixpoint children_loop (requires_all : bool) (l : list t) (fr : frame)
  : res frame :=
  match l with
  | [] => OK fr
  | child_node :: l' =>
      child_node_result <- calc child_node ;;
      children_loop requires_all l'
        (absorb_child requires_all (name child_node)
                      child_node_result fr)
  end.

End WithCursor.

(** [Node.sql], run to its end: the rendering of each of the node's own
    rules. *)
Definition sql (n : t) (source_clause : string)
           (source_data : list string) : gen string :=
  gen_concat
    (map (fun rule => gen_of_res (Rule.sql rule source_clause source_data))
         (rule_set n)).

(** The rules below a node in the order [calc] reaches them: the rules of
    the child nodes first, then the node's own. *)
Fixpoint visit (n : t) : list Rule.t :=
  match n with
  | Make _ _ children rules =>
      (fix visit_all (l : list t) : list Rule.t :=
         match l with
         | [] => []
         | c :: l' => visit c ++ visit_all l'
         end) children ++ rules
  end.

End Node.

(* ================================================================== *)
(** ** SyntaxSchema *)

Module SyntaxSchema.

Record t : Type := Make {
  code : JSON
}.

Definition _JSONSCHEMA_TO_PG_TYPES : sdict string :=
  [ ("integer", "integer");
    ("number", "numeric");
    ("string", "text");
    ("date", "date");
    ("boolean", "boolean") ].

(** [_JSONSCHEMA_TO_PG_TYPES.get(data_type)]: a list or a dictionary is
    not hashable; a value that is not a string equals no key. *)
Definition table_get (data_type : JSON) : res (option string) :=
  match data_type with
  | JStr s => OK (sget s _JSONSCHEMA_TO_PG_TYPES)
  | JList _ => Raise (TypeError "unhashable type: 'list'")
  | JObj _ => Raise (TypeError "unhashable type: 'dict'")
  | JNull | JBool _ | JNum _ => OK None
  end.

(** [col_data.get(key) == text] *)
Definition get_is (key : string) (col_data : sdict JSON) (text : string)
  : bool :=
  match sget key col_data with
  | Some v => json_is_str v text
  | None => false
  end.

Definition _col_data_type (col_data : JSON) : res (option string) :=
  match col_data with
  | JObj col_data =>
      if get_is "format" col_data "date-time" then OK (Some "date")
      else if get_is "$ref" col_data "#/definitions/ynexception"
      then OK (Some "text")
      else
        let data_type :=
          match sget "type" col_data with
          | Some v => v
          | None => JStr "text"
          end in
        data_type <-
          match data_type with
          | JList l =>
              let data_type :=
                filter (fun dt => negb (json_is_str dt "null")) l in
              if (1 <? length data_type)%nat then OK (JStr "text")
              else match data_type with
                   | [] => Raise IndexError
                   | dt :: _ => OK dt
                   end
          | _ => OK data_type
          end ;;
        table_get data_type
  | _ => Raise (AttributeError "object has no attribute 'get'")
  end.

(** [walk]: the dictionaries of a nested structure, as a generator run to
    its end.  [fuel] bounds the depth of the recursion, as the
    interpreter's recursion limit does. *)
Fixpoint walk (fuel : nat) (self_code : JSON) (node : JSON) : gen JSON :=
  match fuel with
  | O => ([], Some RecursionError)
  | S fuel' =>
      let node := if json_truthy node then node else self_code in
      match node with
      | JList l => gen_concat (map (walk fuel' self_code) l)
      | JObj d =>
          gen_app ([node], None)
            (gen_concat
               (map (fun kv =>
                       match snd kv with
                       | JObj _ => walk fuel' self_code (snd kv)
                       | _ => ([], None)
                       end) d))
      | _ =>
          ([node], Some (AttributeError "object has no attribute 'items'"))
      end
  end.

(** [node.get('properties', {}).items()] *)
Definition properties (node : JSON) : res (list (string * JSON)) :=
  match node with
  | JObj d =>
      match sget "properties" d with
      | None => OK []
      | Some (JObj props) => OK props
      | Some _ => Raise (AttributeError "object has no attribute 'items'")
      end
  | _ => Raise (AttributeError "object has no attribute 'get'")
  end.

(** Python truth value of the looked-up column type. *)
Definition type_truthy (ty : option string) : bool :=
  match ty with
  | None => false
  | Some s => negb (String.eqb s EmptyString)
  end.

(** The inner loop of [data_types].  The second call of
    [_col_data_type] on the same [col_data] returns what the first did. *)
Fixpoint columns_loop (cols : list (string * JSON)) (result : sdict string)
  : res (sdict string) :=
  match cols with
  | [] => OK result
  | (col_name, col_data) :: cols' =>
      col_type_from_schema <- _col_data_type col_data ;;
      match col_type_from_schema with
      | Some ty =>
          if type_truthy col_type_from_schema
          then columns_loop cols' (sset col_name ty result)
          else columns_loop cols' result
      | None => columns_loop cols' result
      end
  end.

(** The outer loop of [data_types] over the nodes [walk] yields. *)
Fixpoint nodes_loop (nodes : list JSON) (result : sdict string)
  : res (sdict string) :=
  match nodes with
  | [] => OK result
  | node :: nodes' =>
      cols <- properties node ;;
      result <- columns_loop cols result ;;
      nodes_loop nodes' result
  end.

Definition data_types (fuel : nat) (self : t) : res (sdict string) :=
  let walked := walk fuel (code self) JNull in
  result <- nodes_loop (fst walked) [] ;;
  match snd walked with
  | Some e => Raise e
  | None => OK result
  end.

End SyntaxSchema.

(* ================================================================== *)
(** ** Ruleset *)

Module Report.
(** The dictionary [result] built for one applicant. *)
Record t : Type := Make {
  requirements : sdict Finding.t;
  eligible : bool;
  categories_applicable : list string;
  categories_findings : sdict Finding.t
}.
End Report.

Module Ruleset.

(** A ruleset with its [null_sources], the rows of
    [syntaxschema_set.all()] and its root nodes: the rows of [node_set]
    (a node belongs to a ruleset or to a parent node, so these are the
    nodes without parent). *)
Record t : Type := Make {
  program : string;
  entity : string;
  null_sources : sdict string;
  syntaxschema_set : list SyntaxSchema.t;
  node_set : list Node.t
}.

(** [self.schema] *)
Definition schema (self : t) : option SyntaxSchema.t :=
  match syntaxschema_set self with
  | [] => None
  | x :: _ => Some x
  end.

(** *** [flattened] *)

(** [payload.pop('applicants')]: the value popped and the payload it
    leaves behind. *)
Definition pop_applicants (payload : sdict JSON)
  : res (JSON * sdict JSON) :=
  match sget "applicants" payload with
  | None => Raise (KeyError "applicants")
  | Some applicants => OK (applicants, sremove "applicants" payload)
  end.

Fixpoint chars (s : string) : list JSON :=
  match s with
  | EmptyString => []
  | String c rest => JStr (String c EmptyString) :: chars rest
  end.

(** The elements [for applicant in applicants] goes through. *)
Definition iterate (v : JSON) : res (list JSON) :=
  match v with
  | JList l => OK l
  | JObj d => OK (map (fun kv => JStr (fst kv)) d)
  | JStr s => OK (chars s)
  | JNull | JBool _ | JNum _ => Raise (TypeError "object is not iterable")
  end.

(** A key of the record: payload dictionaries are keyed by text. *)
Definition key_of (k : JSON) : res string :=
  match k with
  | JStr s => OK s
  | JList _ | JObj _ => Raise (TypeError "unhashable type")
  | JNull | JBool _ | JNum _ => Raise (Unsupported "key that is not text")
  end.

(** One element of a sequence given to [dict.update], read as a pair. *)
Definition pair_of (x : JSON) : res (string * JSON) :=
  match x with
  | JList [k; v] => k <- key_of k ;; OK (k, v)
  | JStr (String a (String b EmptyString)) =>
      OK (String a EmptyString, JStr (String b EmptyString))
  | JObj [(k1, _); (k2, _)] => OK (k1, JStr k2)
  | JList _ | JStr _ | JObj _ =>
      Raise (ValueError "dictionary update sequence element has wrong length")
  | JNull | JBool _ | JNum _ =>
      Raise (TypeError "cannot convert dictionary update sequence element")
  end.

(** The assignments [applicant_info.update(applicant)] makes. *)
Definition update_arg (applicant : JSON) : res (list (string * JSON)) :=
  match applicant with
  | JObj d => OK d
  | JList l => Py.mapM pair_of l
  | JStr s => Py.mapM pair_of (chars s)
  | JNull | JBool _ | JNum _ => Raise (TypeError "object is not iterable")
  end.

(** One step of the generator, after the pop: the copy of the shared
    payload overlaid with the applicant's fields. *)
Definition applicant_info (payload : sdict JSON) (applicant : JSON)
  : res (sdict JSON) :=
  fields <- update_arg applicant ;;
  OK (supdate payload fields).

(** The records drawn from the generator for the elements of
    [applicants], until one raises. *)
Fixpoint records (payload : sdict JSON) (applicants : list JSON)
  : gen (sdict JSON) :=
  match applicants with
  | [] => ([], None)
  | applicant :: applicants' =>
      match applicant_info payload applicant with
      | Raise e => ([], Some e)
      | OK info => gen_app ([info], None) (records payload applicants')
      end
  end.

(** [flattened], iterated to its end: the dictionary it was given as the
    pop leaves it, and the records yielded. *)
Definition flattened (payload : sdict JSON)
  : sdict JSON * gen (sdict JSON) :=
  match pop_applicants payload with
  | Raise e => (payload, ([], Some e))
  | OK (applicants, payload) =>
      (payload,
       match iterate applicants with
       | Raise e => ([], Some e)
       | OK applicants => records payload applicants
       end)
  end.

(** *** [null_source_sql] and [values_from_json] *)

(** [" %s as ( select * from %s ) " % (key, val)] *)
Definition fallback_fragment (key val : string) : string :=
  " " ++ key ++ " as ( select * from " ++ val ++ " ) ".

Fixpoint null_source_loop (items : list (string * string))
         (raw : sdict JSON) : list string :=
  match items with
  | [] => []
  | (key, val) :: items' =>
      if negb (smem key raw)
      then fallback_fragment key val :: null_source_loop items' raw
      else null_source_loop items' raw
  end.

Definition null_source_sql (self : t) (raw : sdict JSON) : list string :=
  null_source_loop (PyDict.items (null_sources self)) raw.

Section WithCollaborators.
(** The cursor of the database connection. *)
Variable execute : string -> list string -> Rule.Outcome.
(** [utils.values_from_json(raw, schema)], run to its end: the pairs
    (source fragment, bound value) it yields. *)
Variable util_values_from_json :
  sdict JSON -> option SyntaxSchema.t -> res (list (string * string)).
(** The builtin [int] on the value of an applicant's [id]. *)
Variable py_int : JSON -> res Z.

Definition values_from_json (self : t) (raw : sdict JSON)
  : res (string * list string) :=
  pairs <- util_values_from_json raw (schema self) ;;
  match pairs with
  | [] => Raise (ValueError
                   "not enough values to unpack (expected 2, got 0)")
  | _ :: _ =>
      let source_sql := map fst pairs in
      let source_data := map snd pairs in
      let source_sql := source_sql ++ null_source_sql self raw in
      let source_clause :=
        ("WITH " ++ Str.join ("," ++ Str.nl) source_sql)%string in
      OK (source_clause, source_data)
  end.

(** *** [calc] *)

(** [for node in self.node_set.filter(parent__isnull=True): ...],
    threading [result['requirements']] and [eligibility]. *)
Fixpoint roots_loop (source_clause : string) (source_data : list string)
         (nodes : list Node.t) (requirements : sdict Finding.t)
         (eligibility : bool) : res (sdict Finding.t * bool) :=
  match nodes with
  | [] => OK (requirements, eligibility)
  | node :: nodes' =>
      node_result <- Node.calc execute source_clause source_data node ;;
      let requirements :=
        sset (Node.name node) node_result requirements in
      let eligibility :=
        if negb (String.eqb (Node.name node) "categories")
        then eligibility && Finding.eligible node_result
        else eligibility in
      roots_loop source_clause source_data nodes' requirements eligibility
  end.

(** [int(applicant['id'])] *)
Definition applicant_key (applicant : sdict JSON) : res Z :=
  match sget "id" applicant with
  | None => Raise (KeyError "id")
  | Some v => py_int v
  end.

(** The body of the loop of [calc] for one flattened applicant: the key
    and the finished [result].  The dictionary stored under the key
    before the categories are split off is the same object as the
    finished one. *)
Definition assess (self : t) (applicant : sdict JSON)
  : res (Z * Report.t) :=
  '(source_clause, source_data) <- values_from_json self applicant ;;
  '(requirements, eligibility) <-
     roots_loop source_clause source_data (node_set self) [] true ;;
  key <- applicant_key applicant ;;
  let categories := sget "categories" requirements in
  let requirements := sremove "categories" requirements in
  let subfindings :=
    match categories with
    | Some c => Finding.subfindings c
    | None => []
    end in
  let category_names :=
    map fst (filter (fun kv => Finding.eligible (snd kv)) subfindings) in
  OK (key, Report.Make requirements eligibility category_names subfindings).

(** The loop of [calc], drawing applicants from the generator one at a
    time. *)
Fixpoint applicants_loop (self : t) (payload : sdict JSON)
         (applicants : list JSON) (overall_result : PyDict.t Z Report.t)
  : res (PyDict.t Z Report.t) :=
  match applicants with
  | [] => OK overall_result
  | applicant :: applicants' =>
      applicant <- applicant_info payload applicant ;;
      '(key, result) <- assess self applicant ;;
      applicants_loop self payload applicants'
                      (PyDict.set Z.eqb key result overall_result)
  end.

(** [Ruleset.calc]: the caller's [application] dictionary as the call
    leaves it, and the outcome. *)
Definition calc (self : t) (application : sdict JSON)
  : sdict JSON * res (PyDict.t Z Report.t) :=
  match pop_applicants application with
  | Raise e => (application, Raise e)
  | OK (applicants, payload) =>
      (payload,
       applicants <- iterate applicants ;;
       applicants_loop self payload applicants [])
  end.

(** *** [sql] *)

Definition sql_of_applicant (self : t) (applicant : sdict JSON)
  : gen string :=
  match values_from_json self applicant with
  | Raise e => ([], Some e)
  | OK (source_clause, source_data) =>
      gen_concat
        (map (fun node => Node.sql node source_clause source_data)
             (node_set self))
  end.

Fixpoint sql_loop (self : t) (payload : sdict JSON)
         (applicants : list JSON) : gen string :=
  match applicants with
  | [] => ([], None)
  | applicant :: applicants' =>
      match applicant_info payload applicant with
      | Raise e => ([], Some e)
      | OK applicant =>
          gen_app (sql_of_applicant self applicant)
                  (sql_loop self payload applicants')
      end
  end.

(** [Ruleset.sql], iterated to its end (as by [list(ruleset.sql(a))]):
    the caller's [application] dictionary afterwards, and what was
    yielded. *)
Definition sql (self : t) (application : sdict JSON)
  : sdict JSON * gen string :=
  match pop_applicants application with
  | Raise e => (application, ([], Some e))
  | OK (applicants, payload) =>
      (payload,
       match iterate applicants with
       | Raise e => ([], Some e)
       | OK applicants => sql_loop self payload applicants
       end)
  end.

End WithCollaborators.

End Ruleset.

(* ================================================================== *)
(** ** Definitions used to state the properties *)

Module Spec.

(** The findings of the direct children of a node that carry into its
    limitation list: those that are eligible with a limitation that is
    neither [None] nor empty. *)
Definition carries_limitation (f : Finding.t) : bool :=
  Finding.eligible f && Finding.limitation_truthy (Finding.limitation f).

(** AND or OR of the eligible flags of a list of findings. *)
Definition aggregate (requires_all : bool) (fs : list Finding.t) : bool :=
  if requires_all
  then forallb Finding.eligible fs
  else existsb Finding.eligible fs.

(** The finding stored last under [name] among named findings. *)
Definition last_named (name : string) (l : list (string * Finding.t))
  : option Finding.t :=
  fold_left
    (fun acc nf => if String.eqb (fst nf) name then Some (snd nf) else acc)
    l None.

(** The dictionary after storing named findings one after the other. *)
Definition store (l : list (string * Finding.t)) (d : sdict Finding.t)
  : sdict Finding.t :=
  fold_left (fun acc nf => sset (fst nf) (snd nf) acc) l d.

(** The named findings whose name is not [categories]. *)
Definition general (l : list (string * Finding.t))
  : list (string * Finding.t) :=
  filter (fun nf => negb (String.eqb (fst nf) "categories")) l.

(** The subfindings reported as categories: those of the finding stored
    under [categories], if there is one. *)
Definition category_findings (requirements : sdict Finding.t)
  : sdict Finding.t :=
  match sget "categories" requirements with
  | Some c => Finding.subfindings c
  | None => []
  end.

(** The names of the findings of a dictionary that are eligible. *)
Definition eligible_names (d : sdict Finding.t) : list string :=
  map fst (filter (fun kv => Finding.eligible (snd kv)) d).

(** The report assembled from the named findings of the root nodes. *)
Definition report_of (named : list (string * Finding.t)) : Report.t :=
  let requirements := store named [] in
  Report.Make (sremove "categories" requirements)
              (forallb Finding.eligible (map snd (general named)))
              (eligible_names (category_findings requirements))
              (category_findings requirements).



(** A limitation field is empty: no end date. *)
Definition empty_date (d : option date) : Prop := d = None.

(** A limitation field is empty: no description, or the empty text. *)
Definition empty_text (s : option string) : Prop :=
  s = None \/ s = Some EmptyString.

(** Follows the specification's words: a safe quoting function for an SQL
    text literal, which doubles every quote character of the value and
    encloses the result in quotes. *)
Fixpoint escape_quotes (s : string) : string :=
  match s with
  | EmptyString => EmptyString
  | String c rest =>
      if Ascii.eqb c "'"%char
      then String c (String c (escape_quotes rest))
      else String c (escape_quotes rest)
  end.

Definition sql_literal (v : string) : string :=
  "'" ++ escape_quotes v ++ "'".

(** Follows the specification's words: the diagnostic rendering with each
    bound value inlined as a safely quoted literal. *)
Definition sql_safely_quoted (r : Rule.t) (source_clause : string)
           (source_data : list string) : res string :=
  result <- Rule.statement r source_clause ;;
  Str.format result (map sql_literal source_data).

(** A source clause with placeholders: a leading piece of text, then for
    each bound value a placeholder and the text that follows it. *)
Fixpoint clause_with_holes (first : string) (after : list string) : string :=
  match after with
  | [] => first
  | s :: after' => first ++ "%s" ++ clause_with_holes s after'
  end.

(** The same clause with each value put between single quotes as it
    is. *)
Fixpoint clause_filled (first : string) (filled : list (string * string))
  : string :=
  match filled with
  | [] => first
  | (v, s) :: filled' => first ++ "'" ++ v ++ "'" ++ clause_filled s filled'
  end.

End Spec.

(* ================================================================== *)
(** ** Sample data *)

Module Sample.

(** A database that rejects statements mentioning [boom], returns no row
    for statements mentioning [nothing], an ineligible row with a
    limitation for statements mentioning [income] and an eligible row
    without limitation otherwise. *)
Definition mentions (needle text : string) : bool :=
  match String.index 0 needle text with
  | Some _ => true
  | None => false
  end.

Definition over_income : Rule.Row :=
  Rule.MakeRow false "income above limit" None None
               (Some "over income") None.

Definition plain_yes : Rule.Row :=
  Rule.MakeRow true "meets requirement" None None None None.

Definition execute (statement : string) (params : list string)
  : Rule.Outcome :=
  if mentions "boom" statement then Rule.Failed "syntax error at or near boom"
  else if mentions "nothing" statement then Rule.NoRow
  else if mentions "income" statement then Rule.Fetched over_income
  else Rule.Fetched plain_yes.

(** A source per text field of the record. *)
Fixpoint sources (raw : list (string * JSON)) : list (string * string) :=
  match raw with
  | [] => []
  | (k, JStr v) :: raw' =>
      ((k ++ " as (select %s as v)")%string, v) :: sources raw'
  | _ :: raw' => sources raw'
  end.

Definition util_values_from_json (raw : sdict JSON)
           (schema : option SyntaxSchema.t) : res (list (string * string)) :=
  OK (sources raw).

Definition py_int (v : JSON) : res Z :=
  match v with
  | JNum z => OK z
  | JBool b => OK (if b then 1%Z else 0%Z)
  | _ => Raise (TypeError "int() argument must be a string or a number")
  end.

Definition rule_a : Rule.t := Rule.Make "A" "select yes".
Definition rule_b : Rule.t := Rule.Make "B" "select income".
Definition rule_bad : Rule.t := Rule.Make "bad" "select boom".

Definition root : Node.t := Node.Make "root" false [] [rule_a; rule_b].
Definition strict : Node.t := Node.Make "strict" true [root] [rule_a].
Definition broken : Node.t := Node.Make "broken" false [root] [rule_bad; rule_a].
Definition categories : Node.t :=
  Node.Make "categories" false
            [Node.Make "child" true [] [rule_a];
             Node.Make "adult" true [] [rule_b]] [].

Definition ruleset : Ruleset.t :=
  Ruleset.Make "P" "E" [("household", "default_household")] []
               [root; categories].

Definition application : sdict JSON :=
  [ ("state", JStr "AZ");
    ("applicants", JList [JObj [("id", JNum 7); ("name", JStr "O'Brien")]]) ].


(** The findings the sample database gives for the sample rules. *)
Definition finding_a : Finding.t :=
  Finding.OfRule true "meets requirement" None.

Definition finding_b : Finding.t :=
  Finding.OfRule false "income above limit"
    (Some (Limitation.Make None None (Some "over income") None)).

Definition root_finding : Finding.t :=
  Finding.OfNode true
    [ExplText "meets requirement"; ExplText "income above limit"] []
    [("A", finding_a); ("B", finding_b)].

Definition categories_findings : sdict Finding.t :=
  [ ("child",
     Finding.OfNode true [ExplText "meets requirement"] []
                    [("A", finding_a)]);
    ("adult",
     Finding.OfNode false [ExplText "income above limit"] []
                    [("B", finding_b)]) ].

Definition report : Report.t :=
  Report.Make [("root", root_finding)] true ["child"] categories_findings.

(** A schema with a property of two types besides null. *)
Definition schema : SyntaxSchema.t :=
  SyntaxSchema.Make
    (JObj [("properties",
            JObj [("age", JObj [("type", JStr "integer")]);
                  ("contact", JObj [("type", JList [JStr "string";
                                                    JStr "integer"])])])]).

End Sample.

(* ================================================================== *)
(** ** Notions used to state further properties *)

Module Derived.

(** What the loop of [Ruleset.calc] does for one element of [applicants]:
    the record is drawn from the generator, then assessed. *)
Definition per_applicant
           (execute : string -> list string -> Rule.Outcome)
           (util_values_from_json :
              sdict JSON -> option SyntaxSchema.t ->
              res (list (string * string)))
           (py_int : JSON -> res Z)
           (self : Ruleset.t) (payload : sdict JSON) (element : JSON)
  : res (Z * Report.t) :=
  info <- Ruleset.applicant_info payload element ;;
  Ruleset.assess execute util_values_from_json py_int self info.

(** The reports stored one after the other under their keys. *)
Definition collect (reports : list (Z * Report.t)) : PyDict.t Z Report.t :=
  fold_left (fun acc kr => PyDict.set Z.eqb (fst kr) (snd kr) acc)
            reports [].

(** Every node of the tree has a child node or a rule. *)
Fixpoint populated (n : Node.t) : bool :=
  match n with
  | Node.Make _ _ children rules =>
      negb (match children, rules with [], [] => true | _, _ => false end)
      && (fix all (l : list Node.t) : bool :=
            match l with
            | [] => true
            | c :: l' => populated c && all l'
            end) children
  end.

(** A limitation value without [None] and without empty list at any
    depth. *)
Fixpoint solid (l : LimitationValue) : bool :=
  match l with
  | LimNone => false
  | LimRecord _ => true
  | LimList ls =>
      match ls with
      | [] => false
      | _ :: _ =>
          (fix all (l : list LimitationValue) : bool :=
             match l with
             | [] => true
             | x :: l' => solid x && all l'
             end) ls
      end
  end.

(** The dictionaries below a dictionary, itself first, following the
    entries whose value is a dictionary. *)
Fixpoint dicts (v : JSON) : list JSON :=
  match v with
  | JObj d =>
      v :: (fix below (l : list (string * JSON)) : list JSON :=
              match l with
              | [] => []
              | (_, x) :: l' =>
                  match x with
                  | JObj _ => dicts x ++ below l'
                  | _ => below l'
                  end
              end) d
  | _ => []
  end.

(** How deep dictionaries are nested in dictionaries. *)
Fixpoint depth (v : JSON) : nat :=
  match v with
  | JObj d =>
      S ((fix deepest (l : list (string * JSON)) : nat :=
            match l with
            | [] => O
            | (_, x) :: l' =>
                match x with
                | JObj _ => Nat.max (depth x) (deepest l')
                | _ => deepest l'
                end
            end) d)
  | _ => O
  end.

(** Some dictionary below [v], other than [v] itself, is empty. *)
Fixpoint has_empty_dict (v : JSON) : bool :=
  match v with
  | JObj d =>
      (fix some (l : list (string * JSON)) : bool :=
         match l with
         | [] => false
         | (_, x) :: l' =>
             match x with
             | JObj [] => true
             | JObj (_ :: _) => has_empty_dict x || some l'
             | _ => some l'
             end
         end) d
  | _ => false
  end.

(** What [walk] does below one entry of a dictionary. *)
Definition walk_entry (fuel : nat) (code : JSON) (kv : string * JSON)
  : gen JSON :=
  match snd kv with
  | JObj _ => SyntaxSchema.walk fuel code (snd kv)
  | _ => ([], None)
  end.

(** The column types of the index. *)
Definition pg_types : list string :=
  ["integer"; "numeric"; "text"; "date"; "boolean"].

(** The properties of a node that [data_types] reads. *)
Definition columns (node : JSON) : list (string * JSON) :=
  match SyntaxSchema.properties node with
  | OK cols => cols
  | Raise _ => []
  end.

(** The properties that resolve to a type, with that type, in order. *)
Fixpoint typed (cols : list (string * JSON)) : list (string * string) :=
  match cols with
  | [] => []
  | (name, col_data) :: cols' =>
      match SyntaxSchema._col_data_type col_data with
      | OK (Some ty) => (name, ty) :: typed cols'
      | _ => typed cols'
      end
  end.

Definition typed_columns (nodes : list JSON) : list (string * string) :=
  flat_map (fun node => typed (columns node)) nodes.

(** The ruleset without its [null_sources]. *)
Definition without_null_sources (self : Ruleset.t) : Ruleset.t :=
  Ruleset.Make (Ruleset.program self) (Ruleset.entity self) []
               (Ruleset.syntaxschema_set self) (Ruleset.node_set self).

(** *** Sample data *)

(** Two applicants with the same id; the statements of the second mention
    [income]. *)
Definition ann : sdict JSON := [("id", JNum 7); ("name", JStr "Ann")].
Definition bob : sdict JSON :=
  [("id", JNum 7); ("name", JStr "Bob"); ("state", JStr "NM");
   ("income", JStr "high")].

Definition twins : sdict JSON :=
  [ ("state", JStr "AZ"); ("applicants", JList [JObj ann; JObj bob]) ].

(** What the sample database and ruleset report for them. *)
Definition twins_reports : list (Z * Report.t) :=
  match
    Py.mapM (per_applicant Sample.execute Sample.util_values_from_json
                           Sample.py_int Sample.ruleset
                           [("state", JStr "AZ")])
            [JObj ann; JObj bob]
  with
  | OK reports => reports
  | Raise _ => []
  end.

(** An applicant without id. *)
Definition anonymous : sdict JSON :=
  [("state", JStr "AZ"); ("name", JStr "Ann")].

(** The result of an evaluation that returns one. *)
Definition result_of (m : res Finding.t) : Finding.t :=
  match m with
  | OK f => f
  | Raise _ => Finding.OfRule false EmptyString None
  end.

(** A database in which every rule is eligible until a date. *)
Definition limited (statement : string) (params : list string)
  : Rule.Outcome :=
  Rule.Fetched
    (Rule.MakeRow true "eligible for now" (Some (2027, 6, 30)%Z) (Some true)
                  None None).

(** A node above a node. *)
Definition outer : Node.t :=
  Node.Make "outer" true
            [Node.Make "inner" false [] [Sample.rule_a; Sample.rule_b]]
            [Sample.rule_a].

(** A database in which every rule is eligible. *)
Definition generous (statement : string) (params : list string)
  : Rule.Outcome :=
  Rule.Fetched Sample.plain_yes.


(** A schema that declares [age] twice. *)
Definition nested_schema : SyntaxSchema.t :=
  SyntaxSchema.Make
    (JObj [("properties",
            JObj [("age", JObj [("type", JStr "integer")]);
                  ("born", JObj [("type", JStr "string");
                                 ("format", JStr "date-time")])]);
           ("definitions",
            JObj [("person",
                   JObj [("properties",
                          JObj [("age", JObj [("type", JStr "number")])])])]);
           ("allOf",
            JList [JObj [("properties",
                          JObj [("age", JObj [("type", JStr "boolean")])])]])
          ]).

End Derived.

(* ================================================================== *)
(** * Properties *)

(** ** The error monad *)

Lemma bind_OK_inv {A B : Type} (m : res A) (k : A -> res B) (b : B) :
  Py.bind m k = OK b -> exists a, m = OK a /\ k a = OK b.
Proof.
  destruct m as [a | e]; simpl; intros H; [eauto | discriminate].
Qed.

Lemma bind_Raise_inv {A B : Type} (m : res A) (k : A -> res B) (e : exn) :
  Py.bind m k = Raise e ->
  m = Raise e \/ exists a, m = OK a /\ k a = Raise e.
Proof.
  destruct m as [a | e']; simpl; intros H; [right; eauto | left].
  injection H as ->; reflexivity.
Qed.

Lemma mapM_length {A B : Type} (f : A -> res B) (l : list A) (ys : list B) :
  Py.mapM f l = OK ys -> length ys = length l.
Proof.
  revert ys; induction l as [| x l IH]; simpl; intros ys H.
  - injection H as <-; reflexivity.
  - destruct (f x) as [y | e]; simpl in H; [| discriminate].
    destruct (Py.mapM f l) as [ys' | e]; simpl in H; [| discriminate].
    injection H as <-; simpl; f_equal; apply IH; reflexivity.
Qed.

Lemma mapM_app {A B : Type} (f : A -> res B) (l1 l2 : list A) :
  Py.mapM f (l1 ++ l2) =
  (ys1 <- Py.mapM f l1 ;; ys2 <- Py.mapM f l2 ;; OK (ys1 ++ ys2)).
Proof.
  induction l1 as [| x l1 IH]; simpl.
  - destruct (Py.mapM f l2); reflexivity.
  - destruct (f x) as [y | e]; simpl; [| reflexivity].
    rewrite IH.
    destruct (Py.mapM f l1) as [ys1 | e]; simpl; [| reflexivity].
    destruct (Py.mapM f l2); reflexivity.
Qed.

Lemma error_of_mapM {A B : Type} (f : A -> res B) (l : list A) :
  error_of (Py.mapM f l) = Py.first_error (map f l).
Proof.
  induction l as [| x l IH]; simpl; [reflexivity |].
  destruct (f x) as [y | e]; simpl; [| reflexivity].
  rewrite <- IH.
  destruct (Py.mapM f l); reflexivity.
Qed.

Lemma first_error_app {A : Type} (l1 l2 : list (res A)) :
  Py.first_error (l1 ++ l2) =
  match Py.first_error l1 with
  | Some e => Some e
  | None => Py.first_error l2
  end.
Proof.
  induction l1 as [| [a | e] l1 IH]; simpl; auto.
Qed.

Lemma map_snd_combine {A B : Type} (l1 : list A) (l2 : list B) :
  length l2 = length l1 -> map snd (combine l1 l2) = l2.
Proof.
  revert l2; induction l1 as [| a l1 IH]; intros [| b l2]; simpl;
    intros H; try discriminate; try reflexivity.
  f_equal; apply IH; lia.
Qed.

Lemma map_fst_combine {A B : Type} (l1 : list A) (l2 : list B) :
  length l2 = length l1 -> map fst (combine l1 l2) = l1.
Proof.
  revert l2; induction l1 as [| a l1 IH]; intros [| b l2]; simpl;
    intros H; try discriminate; try reflexivity.
  f_equal; apply IH; lia.
Qed.

(** ** Dictionaries keyed by text *)

Section Dictionaries.
Variable V : Type.
Implicit Types (d : sdict V) (k : string) (v : V).

Lemma sget_None_iff k d : sget k d = None <-> ~ In k (PyDict.keys d).
Proof.
  induction d as [| [k' v'] d IH]; simpl.
  - split; auto.
  - unfold sget in *; simpl.
    destruct (String.eqb_spec k k') as [-> | Hne].
    + split; [discriminate | intros H; contradiction H; auto].
    + rewrite IH; split.
      * intros H [Heq | Hin]; [apply Hne; auto | auto].
      * intros H Hin; apply H; auto.
Qed.

Lemma smem_true_iff k d : smem k d = true <-> In k (PyDict.keys d).
Proof.
  unfold smem, PyDict.mem; fold (sget k d).
  pose proof (sget_None_iff k d) as H.
  destruct (sget k d) as [v |].
  - split; [intros _ | reflexivity].
    destruct (in_dec string_dec k (PyDict.keys d)) as [Hin | Hout];
      [exact Hin |].
    apply H in Hout; discriminate.
  - split; [discriminate |].
    intros Hin; exfalso; apply (proj1 H); auto.
Qed.

Lemma smem_false_iff k d : smem k d = false <-> ~ In k (PyDict.keys d).
Proof.
  rewrite <- smem_true_iff; destruct (smem k d); split; auto;
    try discriminate.
  intros H; contradiction H; reflexivity.
Qed.

Lemma nodupb_NoDup (l : list string) :
  PyDict.nodupb String.eqb l = true <-> NoDup l.
Proof.
  induction l as [| k l IH]; simpl.
  - split; [constructor | reflexivity].
  - rewrite andb_true_iff, negb_true_iff, IH; split.
    + intros [Hk Hl]; constructor; [| exact Hl].
      intros Hin.
      assert (existsb (String.eqb k) l = true) as Hex
          by (apply existsb_exists; exists k; split;
              [exact Hin | apply String.eqb_refl]).
      rewrite Hex in Hk; discriminate.
    + intros Hnd; inversion Hnd as [| ? ? Hk Hl]; subst; split;
        [| exact Hl].
      destruct (existsb (String.eqb k) l) eqn:Hex; [| reflexivity].
      apply existsb_exists in Hex; destruct Hex as [k' [Hin Heq]].
      apply String.eqb_eq in Heq; subst k'; contradiction.
Qed.

Lemma swf_NoDup d : swf d <-> NoDup (PyDict.keys d).
Proof. apply nodupb_NoDup. Qed.

Lemma sget_sset_same k v d : sget k (sset k v d) = Some v.
Proof.
  unfold sget, sset; induction d as [| [k' v'] d IH]; simpl.
  - rewrite String.eqb_refl; reflexivity.
  - destruct (String.eqb k k') eqn:E; simpl; rewrite E; auto.
Qed.

Lemma sget_sset_other k k' v d :
  k <> k' -> sget k (sset k' v d) = sget k d.
Proof.
  intros Hne; unfold sget, sset; induction d as [| [k2 v2] d IH]; simpl.
  - destruct (String.eqb_spec k k'); [contradiction | reflexivity].
  - destruct (String.eqb_spec k' k2) as [<- | Hne2]; simpl.
    + destruct (String.eqb_spec k k'); [contradiction | reflexivity].
    + rewrite IH; reflexivity.
Qed.

Lemma keys_sset k v d :
  PyDict.keys (sset k v d) =
  if smem k d then PyDict.keys d else PyDict.keys d ++ [k].
Proof.
  unfold smem, PyDict.mem, sset; induction d as [| [k' v'] d IH]; simpl.
  - reflexivity.
  - destruct (String.eqb k k') eqn:E; simpl; [reflexivity |].
    change (map fst (PyDict.set String.eqb k v d))
      with (PyDict.keys (PyDict.set String.eqb k v d)).
    rewrite IH.
    destruct (PyDict.get String.eqb k d); reflexivity.
Qed.

Lemma swf_sset k v d : swf d -> swf (sset k v d).
Proof.
  rewrite !swf_NoDup, keys_sset.
  destruct (smem k d) eqn:E; [auto |].
  intros Hnd.
  apply smem_false_iff in E.
  apply NoDup_app; [exact Hnd | repeat constructor; simpl; tauto |].
  intros x Hx [<- | []]; contradiction.
Qed.

Lemma sget_sremove_other k k' d :
  k <> k' -> sget k (sremove k' d) = sget k d.
Proof.
  intros Hne; unfold sget, sremove; induction d as [| [k2 v2] d IH]; simpl.
  - reflexivity.
  - destruct (String.eqb_spec k' k2) as [<- | Hne2]; simpl.
    + destruct (String.eqb_spec k k'); [contradiction | reflexivity].
    + rewrite IH; reflexivity.
Qed.

Lemma sget_sremove_same k d : swf d -> sget k (sremove k d) = None.
Proof.
  rewrite swf_NoDup; unfold sremove.
  induction d as [| [k' v'] d IH]; simpl; intros Hnd; [reflexivity |].
  inversion Hnd as [| ? ? Hk Hd]; subst.
  destruct (String.eqb_spec k k') as [-> | Hne].
  - apply sget_None_iff; exact Hk.
  - unfold sget; simpl.
    destruct (String.eqb_spec k k'); [contradiction |].
    apply IH; exact Hd.
Qed.

(** Storing named values one after the other. *)
Lemma swf_store (l : list (string * V)) d :
  swf d -> swf (fold_left (fun acc nf => sset (fst nf) (snd nf) acc) l d).
Proof.
  revert d; induction l as [| [nm f] l IH]; simpl; intros d Hd;
    [exact Hd |].
  apply IH, swf_sset, Hd.
Qed.

End Dictionaries.

Lemma sget_store (name : string) (l : list (string * Finding.t))
      (d : sdict Finding.t) :
  sget name (fold_left (fun acc nf => sset (fst nf) (snd nf) acc) l d) =
  match Spec.last_named name l with
  | Some f => Some f
  | None => sget name d
  end.
Proof.
  unfold Spec.last_named.
  revert d; induction l as [| [nm f] l IH] using rev_ind; intros d.
  - reflexivity.
  - rewrite !fold_left_app; simpl.
    destruct (String.eqb_spec nm name) as [-> | Hne].
    + apply sget_sset_same.
    + rewrite sget_sset_other by (intros E; apply Hne; auto).
      apply IH.
Qed.

(** ** Aggregation by a node *)

Lemma absorb_rule_child ra nm f fr :
  Node.absorb_rule ra nm f fr = Node.absorb_child ra nm f fr.
Proof. reflexivity. Qed.

Lemma absorb_all_app ra l1 l2 fr :
  Node.absorb_all ra (l1 ++ l2) fr =
  Node.absorb_all ra l2 (Node.absorb_all ra l1 fr).
Proof. unfold Node.absorb_all; apply fold_left_app. Qed.

Lemma absorb_all_eligibility ra l fr :
  Node.eligibility (Node.absorb_all ra l fr) =
  if ra
  then Node.eligibility fr && forallb Finding.eligible (map snd l)
  else Node.eligibility fr || existsb Finding.eligible (map snd l).
Proof.
  revert fr; induction l as [| [nm f] l IH]; intros fr; simpl.
  - destruct ra; [apply eq_sym, andb_true_r | apply eq_sym, orb_false_r].
  - change (Node.absorb_all ra ((nm, f) :: l) fr)
      with (Node.absorb_all ra l (Node.absorb_child ra nm f fr)).
    rewrite IH; destruct ra; simpl;
      [apply eq_sym, andb_assoc | apply eq_sym, orb_assoc].
Qed.

Lemma absorb_all_explanation ra l fr :
  Node.explanation (Node.absorb_all ra l fr) =
  Node.explanation fr ++ map Finding.explanation (map snd l).
Proof.
  revert fr; induction l as [| [nm f] l IH]; intros fr; simpl.
  - apply eq_sym, app_nil_r.
  - change (Node.absorb_all ra ((nm, f) :: l) fr)
      with (Node.absorb_all ra l (Node.absorb_child ra nm f fr)).
    rewrite IH; simpl; rewrite <- app_assoc; reflexivity.
Qed.

Lemma absorb_all_limitation ra l fr :
  Node.limitation (Node.absorb_all ra l fr) =
  Node.limitation fr ++
  map Finding.limitation (filter Spec.carries_limitation (map snd l)).
Proof.
  revert fr; induction l as [| [nm f] l IH]; intros fr; simpl.
  - apply eq_sym, app_nil_r.
  - change (Node.absorb_all ra ((nm, f) :: l) fr)
      with (Node.absorb_all ra l (Node.absorb_child ra nm f fr)).
    rewrite IH; simpl; unfold Spec.carries_limitation.
    destruct (Finding.eligible f
              && Finding.limitation_truthy (Finding.limitation f));
      simpl; [rewrite <- app_assoc |]; reflexivity.
Qed.

(** ** The statement of a rule *)

Lemma statement_ok (r : Rule.t) (source_clause : string) :
  Rule.statement r source_clause = OK (Rule.statement_text r source_clause).
Proof. reflexivity. Qed.

(** ** Induction on nodes *)

Lemma Node_induction (P : Node.t -> Prop) :
  (forall nm ra children rules,
      Forall P children -> P (Node.Make nm ra children rules)) ->
  forall n, P n.
Proof.
  intros step.
  fix IH 1.
  intros [nm ra children rules].
  apply step.
  induction children as [| c children IHc]; constructor.
  - apply IH.
  - exact IHc.
Qed.

Lemma visit_Make nm ra children rules :
  Node.visit (Node.Make nm ra children rules) =
  flat_map Node.visit children ++ rules.
Proof. reflexivity. Qed.

Lemma first_error_Some_In {A : Type} (l : list (res A)) (e : exn) :
  Py.first_error l = Some e -> In (Raise e) l.
Proof.
  induction l as [| [a | e'] l IH]; simpl; intros H.
  - discriminate.
  - right; auto.
  - injection H as ->; left; reflexivity.
Qed.

Lemma first_error_None_In {A : Type} (l : list (res A)) (e : exn) :
  Py.first_error l = None -> ~ In (Raise e) l.
Proof.
  induction l as [| [a | e'] l IH]; simpl; intros H Hin.
  - exact Hin.
  - destruct Hin as [Heq | Hin]; [discriminate | exact (IH H Hin)].
  - discriminate.
Qed.

Section Evaluation.
Variable execute : string -> list string -> Rule.Outcome.
Variable source_clause : string.
Variable source_data : list string.

Local Abbreviation ncalc := (Node.calc execute source_clause source_data).
Local Abbreviation rcalc :=
  (fun rule => Rule.calc execute rule source_clause source_data).
Local Abbreviation rule_calc rule :=
  (Rule.calc execute rule source_clause source_data).

Lemma rules_loop_mapM ra rules fr :
  Node.rules_loop execute source_clause source_data ra rules fr =
  (rfs <- Py.mapM rcalc rules ;;
   OK (Node.absorb_all ra (combine (map Rule.name rules) rfs) fr)).
Proof.
  revert fr; induction rules as [| r rules IH]; intros fr; simpl;
    [reflexivity |].
  destruct (Rule.calc execute r source_clause source_data) as [f | e];
    simpl; [| reflexivity].
  rewrite IH.
  destruct (Py.mapM rcalc rules); reflexivity.
Qed.

Lemma children_loop_mapM ra children fr :
  Node.children_loop execute source_clause source_data ra children fr =
  (cfs <- Py.mapM ncalc children ;;
   OK (Node.absorb_all ra (combine (map Node.name children) cfs) fr)).
Proof.
  revert fr; induction children as [| c children IH]; intros fr; simpl;
    [reflexivity |].
  destruct (ncalc c) as [f | e]; simpl; [| reflexivity].
  rewrite IH.
  destruct (Py.mapM ncalc children); reflexivity.
Qed.

(** [calc] runs the loop over the child nodes, then the loop over the
    rules. *)
Lemma calc_loops nm ra children rules :
  ncalc (Node.Make nm ra children rules) =
  (fr <- Node.children_loop execute source_clause source_data ra children
                            (Node.initial ra) ;;
   fr <- Node.rules_loop execute source_clause source_data ra rules fr ;;
   OK (Finding.OfNode (Node.eligibility fr) (Node.explanation fr)
                      (Node.limitation fr) (Node.subfindings fr))).
Proof.
  simpl. f_equal.
  generalize (Node.initial ra).
  induction children as [| c children IH]; intros fr; simpl;
    [reflexivity |].
  destruct (ncalc c); simpl; [apply IH | reflexivity].
Qed.

Lemma calc_closed n :
  ncalc n =
  (cfs <- Py.mapM ncalc (Node.node_set n) ;;
   rfs <- Py.mapM rcalc (Node.rule_set n) ;;
   let fr := Node.final_frame n cfs rfs in
   OK (Finding.OfNode (Node.eligibility fr) (Node.explanation fr)
                      (Node.limitation fr) (Node.subfindings fr))).
Proof.
  destruct n as [nm ra children rules].
  rewrite calc_loops, children_loop_mapM.
  unfold Node.final_frame; simpl.
  destruct (Py.mapM ncalc children) as [cfs | e]; simpl; [| reflexivity].
  rewrite rules_loop_mapM.
  destruct (Py.mapM rcalc rules) as [rfs | e]; simpl; [| reflexivity].
  rewrite absorb_all_app; reflexivity.
Qed.

Lemma final_frame_eligibility n cfs rfs :
  length cfs = length (Node.node_set n) ->
  length rfs = length (Node.rule_set n) ->
  Node.eligibility (Node.final_frame n cfs rfs) =
  Spec.aggregate (Node.requires_all n) (cfs ++ rfs).
Proof.
  intros Hc Hr; unfold Node.final_frame, Spec.aggregate.
  rewrite absorb_all_eligibility, map_app.
  rewrite !map_snd_combine by (rewrite length_map; assumption).
  destruct (Node.requires_all n); reflexivity.
Qed.

Lemma final_frame_explanation n cfs rfs :
  length cfs = length (Node.node_set n) ->
  length rfs = length (Node.rule_set n) ->
  Node.explanation (Node.final_frame n cfs rfs) =
  map Finding.explanation (cfs ++ rfs).
Proof.
  intros Hc Hr; unfold Node.final_frame.
  rewrite absorb_all_explanation, map_app.
  rewrite !map_snd_combine by (rewrite length_map; assumption).
  destruct (Node.requires_all n); reflexivity.
Qed.

Lemma final_frame_limitation n cfs rfs :
  length cfs = length (Node.node_set n) ->
  length rfs = length (Node.rule_set n) ->
  Node.limitation (Node.final_frame n cfs rfs) =
  map Finding.limitation (filter Spec.carries_limitation (cfs ++ rfs)).
Proof.
  intros Hc Hr; unfold Node.final_frame.
  rewrite absorb_all_limitation, map_app.
  rewrite !map_snd_combine by (rewrite length_map; assumption).
  destruct (Node.requires_all n); reflexivity.
Qed.

(** C1. [Node.calc] returns [eligible] equal to the AND of the eligible
    flags of all direct children (child nodes, then own rules) when
    [requires_all] is true and to their OR when it is false: whenever the
    children evaluate, the node does, with that flag, and an exception of
    a child is the node's.  With no child node and no rule the result is
    [requires_all] itself: true for AND, false for OR. *)
Theorem node_calc_eligible :
  forall n : Node.t,
    Py.fmap Finding.eligible (ncalc n) =
    (cfs <- Py.mapM ncalc (Node.node_set n) ;;
     rfs <- Py.mapM rcalc (Node.rule_set n) ;;
     OK (Spec.aggregate (Node.requires_all n) (cfs ++ rfs)))
    /\ Spec.aggregate true [] = true
    /\ Spec.aggregate false [] = false
    /\ (forall nm ra,
           ncalc (Node.Make nm ra [] []) = OK (Finding.OfNode ra [] [] [])).
Proof.
  intros n; repeat split.
  - rewrite calc_closed.
    destruct (Py.mapM ncalc (Node.node_set n)) as [cfs | e] eqn:Hc;
      simpl; [| reflexivity].
    destruct (Py.mapM rcalc (Node.rule_set n)) as [rfs | e] eqn:Hr;
      simpl; [| reflexivity].
    rewrite final_frame_eligibility;
      [reflexivity | eapply mapM_length; eassumption
       | eapply mapM_length; eassumption].
  - intros nm [|]; reflexivity.
Qed.

(** C3. The explanation list of a node's result holds the explanation of
    every direct child in the order of the visit (child nodes, then own
    rules), whatever the child's eligibility; its limitation list holds
    the limitations of exactly the children that are eligible and whose
    limitation is neither [None] nor empty.  A child that is not eligible
    adds nothing to the limitation list, whatever its limitation and
    whatever [requires_all]. *)
Theorem node_calc_explanation_limitation :
  forall n : Node.t,
    Py.fmap (fun f => (Finding.explanation f, Finding.limitation f))
            (ncalc n) =
    (cfs <- Py.mapM ncalc (Node.node_set n) ;;
     rfs <- Py.mapM rcalc (Node.rule_set n) ;;
     OK (ExplList (map Finding.explanation (cfs ++ rfs)),
         LimList (map Finding.limitation
                      (filter Spec.carries_limitation (cfs ++ rfs)))))
    /\ (forall f,
           Spec.carries_limitation f = true <->
           Finding.eligible f = true /\
           Finding.limitation_truthy (Finding.limitation f) = true)
    /\ (forall before f after,
           Finding.eligible f = false ->
           filter Spec.carries_limitation (before ++ f :: after) =
           filter Spec.carries_limitation (before ++ after)).
Proof.
  intros n; split; [| split].
  - rewrite calc_closed.
    destruct (Py.mapM ncalc (Node.node_set n)) as [cfs | e] eqn:Hc;
      simpl; [| reflexivity].
    destruct (Py.mapM rcalc (Node.rule_set n)) as [rfs | e] eqn:Hr;
      simpl; [| reflexivity].
    apply mapM_length in Hc; apply mapM_length in Hr.
    rewrite final_frame_explanation, final_frame_limitation by assumption.
    reflexivity.
  - intros f; unfold Spec.carries_limitation; apply andb_true_iff.
  - intros before f after Hf.
    rewrite !filter_app; simpl.
    unfold Spec.carries_limitation at 2; rewrite Hf; reflexivity.
Qed.

(** ** Results and failures of a rule *)

Lemma rule_calc_Failed r cause :
  execute (Rule.statement_text r source_clause) source_data
  = Rule.Failed cause ->
  rule_calc r =
  Raise (DataError
           (Rule.error_message r cause
                               (Rule.statement_text r source_clause))).
Proof.
  intros H; unfold Rule.calc; rewrite statement_ok; simpl.
  rewrite H; reflexivity.
Qed.

Lemma rule_calc_not_Failed r f :
  rule_calc r = OK f ->
  forall cause,
    execute (Rule.statement_text r source_clause) source_data
    <> Rule.Failed cause.
Proof.
  intros H cause Hex; rewrite (rule_calc_Failed Hex) in H; discriminate.
Qed.

(** The exception of a node is the first one its rules raise, in the
    order of the visit. *)
Lemma node_calc_error n :
  Py.error_of (ncalc n) = Py.first_error (map rcalc (Node.visit n)).
Proof.
  induction n as [nm ra children rules IH] using Node_induction.
  rewrite calc_closed, visit_Make, map_app, first_error_app; simpl.
  assert (Hch : Py.error_of (Py.mapM ncalc children) =
                Py.first_error (map rcalc (flat_map Node.visit children))).
  { clear rules. induction IH as [| c children Hc _ IHch]; simpl;
      [reflexivity |].
    rewrite map_app, first_error_app, <- Hc, <- IHch.
    destruct (ncalc c); simpl; [| reflexivity].
    destruct (Py.mapM ncalc children); reflexivity. }
  rewrite <- Hch, <- error_of_mapM.
  destruct (Py.mapM ncalc children); simpl; [| reflexivity].
  destruct (Py.mapM rcalc rules); reflexivity.
Qed.

(** C4. When the execution of a rule's query fails, [Rule.calc] raises a
    [DataError] whose message carries the rule's name, the cause and the
    statement, and returns no result.  [Node.calc] handles no exception:
    the exception it raises is the first one a rule below it raises, as
    raised, and it returns a result only if no rule below it raises; so a
    node above a rule whose execution fails raises an exception that a
    [Rule.calc] raised. *)
Theorem execution_error_propagates :
  (forall r cause,
      execute (Rule.statement_text r source_clause) source_data
      = Rule.Failed cause ->
      rule_calc r =
      Raise (DataError
               (("Error executing rule " ++ Rule.name r ++ Str.nl)
                ++ cause
                ++ (Str.nl ++ Str.nl ++ " in sql:" ++ Str.nl ++ Str.nl)
                ++ Rule.statement_text r source_clause)))
  /\ (forall n,
         Py.error_of (ncalc n) =
         Py.first_error (map rcalc (Node.visit n)))
  /\ (forall n r cause,
         In r (Node.visit n) ->
         execute (Rule.statement_text r source_clause) source_data
         = Rule.Failed cause ->
         exists e r',
           ncalc n = Raise e /\ In r' (Node.visit n) /\ rule_calc r' = Raise e).
Proof.
  split; [| split].
  - intros r cause H; apply rule_calc_Failed; exact H.
  - apply node_calc_error.
  - intros n r cause Hin Hex.
    pose proof (node_calc_error n) as Herr.
    destruct (ncalc n) as [f | e]; simpl in Herr.
    + exfalso.
      apply (@first_error_None_In _ (map rcalc (Node.visit n))
               (DataError
                  (Rule.error_message r cause
                     (Rule.statement_text r source_clause))));
        [symmetry; exact Herr |].
      apply in_map_iff; exists r; split;
        [apply rule_calc_Failed; exact Hex | exact Hin].
    + symmetry in Herr; apply first_error_Some_In in Herr.
      apply in_map_iff in Herr; destruct Herr as [r' [Hr' Hin']].
      exists e, r'; auto.
Qed.

(** C7. The limitation of a rule's result is [None] exactly when the
    fetched [end_date] and [description] are both empty (no date; no text
    or the empty text); otherwise it is the dictionary of the four
    fetched fields [end_date], [normal], [description], [explanation]. *)
Theorem rule_calc_limitation :
  forall (r : Rule.t) (row : Rule.Row),
    execute (Rule.statement_text r source_clause) source_data
    = Rule.Fetched row ->
    exists limitation,
      rule_calc r = OK (Finding.OfRule (Rule.row_eligible row)
                                   (Rule.row_explanation row)
                                   limitation)
      /\ (limitation = None <->
          Spec.empty_date (Rule.row_end_date row) /\
          Spec.empty_text (Rule.row_description row))
      /\ (limitation <> None ->
          limitation =
          Some (Limitation.Make (Rule.row_end_date row)
                                (Rule.row_normal row)
                                (Rule.row_description row)
                                (Rule.row_limitation_explanation row))).
Proof.
  intros r row Hex.
  unfold Rule.calc; rewrite statement_ok; simpl; rewrite Hex.
  eexists; split; [reflexivity |].
  unfold Spec.empty_date, Spec.empty_text, Rule.limitation_of_row; simpl.
  destruct (Rule.row_end_date row) as [d |]; simpl.
  - split; [| reflexivity].
    split; [discriminate | intros [H _]; discriminate].
  - destruct (Rule.row_description row) as [s |]; simpl.
    + destruct (String.eqb_spec s EmptyString) as [-> | Hne]; simpl.
      * split; [| intros H; contradiction H; reflexivity].
        split; auto.
      * split; [| reflexivity].
        split; [discriminate |].
        intros [_ [H | H]]; [discriminate |].
        injection H as ->; contradiction Hne; reflexivity.
    + split; [| intros H; contradiction H; reflexivity].
      split; auto.
Qed.

End Evaluation.

(** ** Source compilation *)

Lemma fallback_fragment_format (key val : string) :
  Str.format " %s as ( select * from %s ) " [key; val] =
  OK (Ruleset.fallback_fragment key val).
Proof. reflexivity. Qed.




Section Orchestration.
Variable execute : string -> list string -> Rule.Outcome.
Variable util_values_from_json :
  sdict JSON -> option SyntaxSchema.t -> res (list (string * string)).
Variable py_int : JSON -> res Z.

Local Abbreviation values_from_json :=
  (Ruleset.values_from_json util_values_from_json).
Local Abbreviation assess :=
  (Ruleset.assess execute util_values_from_json py_int).
Local Abbreviation calc :=
  (Ruleset.calc execute util_values_from_json py_int).
Local Abbreviation sql := (Ruleset.sql util_values_from_json).


(** C8. When no source fragment is produced for a record, the helper
    yielding nothing or raising, source compilation raises an exception
    and returns no clause; a clause is returned only if the helper yielded
    a fragment. *)
Theorem no_sources_fails :
  forall (self : Ruleset.t) (raw : sdict JSON),
    (util_values_from_json raw (Ruleset.schema self) = OK [] ->
     values_from_json self raw =
     Raise (ValueError "not enough values to unpack (expected 2, got 0)"))
    /\ (forall e,
           util_values_from_json raw (Ruleset.schema self) = Raise e ->
           values_from_json self raw = Raise e)
    /\ (forall result,
           values_from_json self raw = OK result ->
           exists p ps,
             util_values_from_json raw (Ruleset.schema self) = OK (p :: ps)).
Proof.
  intros self raw; unfold Ruleset.values_from_json; split; [| split].
  - intros ->; reflexivity.
  - intros e ->; reflexivity.
  - intros result.
    destruct (util_values_from_json raw (Ruleset.schema self))
      as [[| p ps] | e]; simpl; intros H; try discriminate.
    exists p, ps; reflexivity.
Qed.

(** ** The report of one applicant *)

Lemma roots_loop_mapM clause data nodes requirements eligibility :
  Ruleset.roots_loop execute clause data nodes requirements eligibility =
  (fs <- Py.mapM (Node.calc execute clause data) nodes ;;
   let named := combine (map Node.name nodes) fs in
   OK (Spec.store named requirements,
       eligibility
       && forallb Finding.eligible (map snd (Spec.general named)))).
Proof.
  revert requirements eligibility.
  induction nodes as [| node nodes IH]; intros requirements eligibility;
    simpl.
  - rewrite andb_true_r; reflexivity.
  - destruct (Node.calc execute clause data node) as [f | e]; simpl;
      [| reflexivity].
    rewrite IH.
    destruct (Py.mapM (Node.calc execute clause data) nodes) as [fs | e];
      simpl; [| reflexivity].
    destruct (String.eqb (Node.name node) "categories"); simpl;
      [reflexivity |].
    rewrite andb_assoc; reflexivity.
Qed.

Lemma assess_OK self applicant key report :
  assess self applicant = OK (key, report) ->
  exists clause data fs,
    values_from_json self applicant = OK (clause, data)
    /\ Py.mapM (Node.calc execute clause data) (Ruleset.node_set self)
       = OK fs
    /\ Ruleset.applicant_key py_int applicant = OK key
    /\ report =
       Spec.report_of (combine (map Node.name (Ruleset.node_set self)) fs).
Proof.
  unfold Ruleset.assess; intros H.
  destruct (values_from_json self applicant) as [[clause data] | e];
    simpl in H; [| discriminate].
  rewrite roots_loop_mapM in H.
  destruct (Py.mapM (Node.calc execute clause data)
                    (Ruleset.node_set self)) as [fs | e] eqn:Hm;
    simpl in H; [| discriminate].
  destruct (Ruleset.applicant_key py_int applicant) as [key' | e];
    simpl in H; [| discriminate].
  injection H as <- <-.
  exists clause, data, fs; repeat split; assumption || reflexivity.
Qed.

(** When the sources compile, the roots evaluate and the applicant has an
    integer id, the report is assembled. *)
Lemma assess_report self applicant clause data fs key :
  values_from_json self applicant = OK (clause, data) ->
  Py.mapM (Node.calc execute clause data) (Ruleset.node_set self) = OK fs ->
  Ruleset.applicant_key py_int applicant = OK key ->
  assess self applicant =
  OK (key,
      Spec.report_of (combine (map Node.name (Ruleset.node_set self)) fs)).
Proof.
  intros Hv Hm Hk; unfold Ruleset.assess; rewrite Hv; simpl.
  rewrite roots_loop_mapM, Hm; simpl; rewrite Hk; reflexivity.
Qed.

Lemma In_set_Z (k : Z) (v : Report.t) (d : PyDict.t Z Report.t) kv :
  In kv (PyDict.set Z.eqb k v d) -> kv = (k, v) \/ In kv d.
Proof.
  induction d as [| [k' v'] d IH]; simpl.
  - intros [<- | []]; auto.
  - destruct (Z.eqb_spec k k') as [<- | Hne]; simpl.
    + intros [<- | Hin]; auto.
    + intros [<- | Hin]; auto.
      destruct (IH Hin); auto.
Qed.

Lemma applicants_loop_reports self payload applicants acc overall :
  Ruleset.applicants_loop execute util_values_from_json py_int
                          self payload applicants acc = OK overall ->
  forall key report,
    In (key, report) overall ->
    In (key, report) acc
    \/ exists element applicant,
        In element applicants
        /\ Ruleset.applicant_info payload element = OK applicant
        /\ assess self applicant = OK (key, report).
Proof.
  revert acc; induction applicants as [| element applicants IH];
    simpl; intros acc H key report Hin.
  - injection H as <-; auto.
  - destruct (Ruleset.applicant_info payload element) as [applicant | e]
      eqn:Hinfo; simpl in H; [| discriminate].
    destruct (assess self applicant) as [[key' report'] | e] eqn:Has;
      simpl in H; [| discriminate].
    destruct (IH _ H _ _ Hin) as [Hacc | [el [ap [Hel [Hap Hrep]]]]].
    + apply In_set_Z in Hacc; destruct Hacc as [Heq | Hacc]; [| auto].
      injection Heq as -> ->.
      right; exists element, applicant; auto.
    + right; exists el, ap; auto.
Qed.

Lemma report_of_properties (named : list (string * Finding.t)) :
  let report := Spec.report_of named in
  Report.eligible report
  = forallb Finding.eligible (map snd (Spec.general named))
  /\ sget "categories" (Report.requirements report) = None
  /\ (forall name,
         name <> "categories" ->
         sget name (Report.requirements report)
         = Spec.last_named name named)
  /\ Report.categories_findings report
     = match Spec.last_named "categories" named with
       | Some c => Finding.subfindings c
       | None => []
       end
  /\ Report.categories_applicable report
     = map fst (filter (fun kv => Finding.eligible (snd kv))
                       (Report.categories_findings report)).
Proof.
  simpl; repeat split.
  - apply sget_sremove_same, swf_store; reflexivity.
  - intros name Hne.
    rewrite sget_sremove_other by exact Hne.
    unfold Spec.store; rewrite sget_store.
    destruct (Spec.last_named name named); reflexivity.
  - unfold Spec.category_findings, Spec.store; rewrite sget_store.
    destruct (Spec.last_named "categories" named); reflexivity.
Qed.

(** C2. Every report that [Ruleset.calc] returns under an id is the report
    of an applicant of the payload with that id: of an element of
    [applicants] whose flattened record (the shared fields overlaid with
    the applicant's) has this integer id, for which the sources compiled
    and every root node evaluated.  In the report, with the findings of the
    roots evaluated on the sources of that record: [eligible] is the AND of
    the eligible flags of exactly the roots not named [categories];
    [requirements] has no entry [categories] and holds the finding of
    every other root under its name; [categories.findings] is the
    subfindings dictionary of the root named [categories] (empty when
    there is none) and [categories.applicable] is the names of its entries
    whose eligible flag is true. *)
Theorem ruleset_calc_report :
  forall (self : Ruleset.t) (application : sdict JSON)
         (overall : PyDict.t Z Report.t) (key : Z) (report : Report.t),
    snd (calc self application) = OK overall ->
    In (key, report) overall ->
    exists (applicants : JSON) (elements : list JSON) (element : JSON)
           (applicant : sdict JSON) clause data (fs : list Finding.t),
      sget "applicants" application = Some applicants
      /\ Ruleset.iterate applicants = OK elements
      /\ In element elements
      /\ Ruleset.applicant_info (sremove "applicants" application) element
         = OK applicant
      /\ Ruleset.applicant_key py_int applicant = OK key
      /\ values_from_json self applicant = OK (clause, data)
      /\ Py.mapM (Node.calc execute clause data) (Ruleset.node_set self)
         = OK fs
      /\ assess self applicant = OK (key, report)
      /\ let named := combine (map Node.name (Ruleset.node_set self)) fs in
         Report.eligible report
         = forallb Finding.eligible (map snd (Spec.general named))
         /\ sget "categories" (Report.requirements report) = None
         /\ (forall name,
                name <> "categories" ->
                sget name (Report.requirements report)
                = Spec.last_named name named)
         /\ Report.categories_findings report
            = match Spec.last_named "categories" named with
              | Some c => Finding.subfindings c
              | None => []
              end
         /\ Report.categories_applicable report
            = map fst (filter (fun kv => Finding.eligible (snd kv))
                              (Report.categories_findings report)).
Proof.
  intros self application overall key report Hcalc Hin.
  unfold Ruleset.calc, Ruleset.pop_applicants in Hcalc.
  destruct (sget "applicants" application) as [apps |] eqn:Hget;
    simpl in Hcalc; [| discriminate].
  destruct (Ruleset.iterate apps) as [elements | e] eqn:Hit; simpl in Hcalc;
    [| discriminate].
  destruct (applicants_loop_reports _ _ _ _ Hcalc _ _ Hin)
    as [[] | [element [applicant [Hel [Hinfo Has]]]]].
  pose proof Has as Has'.
  apply assess_OK in Has.
  destruct Has as [clause [data [fs [Hv [Hm [Hkey Hrep]]]]]].
  exists apps, elements, element, applicant, clause, data, fs.
  repeat (split; [assumption || reflexivity |]).
  rewrite Hrep; apply report_of_properties.
Qed.

(** ** The payload after flattening *)

(** [calc] and [sql] leave the caller's dictionary as [flattened] does. *)
Lemma calc_payload self application :
  fst (calc self application) = fst (Ruleset.flattened application)
  /\ fst (sql self application) = fst (Ruleset.flattened application).
Proof.
  unfold Ruleset.calc, Ruleset.sql, Ruleset.flattened.
  destruct (Ruleset.pop_applicants application) as [[apps payload] | e];
    split; reflexivity.
Qed.

(** C10. Flattening pops [applicants] from the dictionary it is given:
    after [Ruleset.calc], and after [Ruleset.sql] iterated to its end, the
    caller's application holds no key [applicants] and every other
    top-level key with its value as before; a second call on the same
    object raises [KeyError] and changes nothing. *)
Theorem flattening_pops_applicants :
  forall (self : Ruleset.t) (application : sdict JSON),
    swf application ->
    smem "applicants" application = true ->
    let after := sremove "applicants" application in
    fst (Ruleset.flattened application) = after
    /\ fst (calc self application) = after
    /\ fst (sql self application) = after
    /\ smem "applicants" after = false
    /\ (forall key,
           key <> "applicants" -> sget key after = sget key application)
    /\ calc self after = (after, Raise (KeyError "applicants"))
    /\ sql self after = (after, ([], Some (KeyError "applicants"))).
Proof.
  intros self application Hwf Hmem after.
  assert (Hget : exists v, sget "applicants" application = Some v).
  { unfold smem, PyDict.mem in Hmem; fold (sget "applicants" application)
      in Hmem.
    destruct (sget "applicants" application) as [v |];
      [eauto | discriminate]. }
  destruct Hget as [v Hget].
  assert (Hafter : sget "applicants" after = None)
    by (apply sget_sremove_same; exact Hwf).
  repeat split.
  - unfold Ruleset.flattened, Ruleset.pop_applicants; rewrite Hget;
      reflexivity.
  - unfold Ruleset.calc, Ruleset.pop_applicants; rewrite Hget; reflexivity.
  - unfold Ruleset.sql, Ruleset.pop_applicants; rewrite Hget; reflexivity.
  - unfold smem, PyDict.mem; fold (sget "applicants" after).
    rewrite Hafter; reflexivity.
  - intros key Hne; apply sget_sremove_other; exact Hne.
  - unfold Ruleset.calc, Ruleset.pop_applicants; rewrite Hafter;
      reflexivity.
  - unfold Ruleset.sql, Ruleset.pop_applicants; rewrite Hafter;
      reflexivity.
Qed.

End Orchestration.

(* ================================================================== *)
(** ** The diagnostic rendering [Rule.sql] *)

Lemma append_assoc (a b c : string) : ((a ++ b) ++ c = a ++ (b ++ c))%string.
Proof. induction a as [| x a IH]; simpl; [| rewrite IH]; reflexivity. Qed.

Lemma no_percent_append (a b : string) :
  Str.no_percent (a ++ b) = Str.no_percent a && Str.no_percent b.
Proof.
  induction a as [| x a IH]; simpl; [reflexivity |].
  rewrite IH, andb_assoc; reflexivity.
Qed.

(** The head of a text without percent sign is no percent sign. *)
Ltac percent_free c H :=
  simpl in H; apply andb_true_iff in H; destruct H as [?Hc ?Hrest];
  apply negb_true_iff, Ascii.eqb_neq in Hc;
  destruct c as [[] [] [] [] [] [] [] []]; try (contradiction Hc; reflexivity).

Lemma quote_placeholders_prefix (a b : string) :
  Str.no_percent a = true ->
  Str.quote_placeholders (a ++ b) = (a ++ Str.quote_placeholders b)%string.
Proof.
  induction a as [| c a IH]; intros H; [reflexivity |].
  percent_free c H; simpl; rewrite IH by assumption; reflexivity.
Qed.

Lemma quote_placeholders_free (a : string) :
  Str.no_percent a = true -> Str.quote_placeholders a = a.
Proof.
  induction a as [| c a IH]; intros H; [reflexivity |].
  percent_free c H; simpl; rewrite IH by assumption; reflexivity.
Qed.

Lemma format_prefix (a t : string) (args : list string) :
  Str.no_percent a = true ->
  Str.format (a ++ t) args = Py.fmap (append a) (Str.format t args).
Proof.
  induction a as [| c a IH]; intros H.
  - simpl; destruct (Str.format t args); reflexivity.
  - percent_free c H; simpl; rewrite IH by assumption;
      destruct (Str.format t args); reflexivity.
Qed.

Lemma format_free (a : string) :
  Str.no_percent a = true -> Str.format a [] = OK a.
Proof.
  induction a as [| c a IH]; intros H; [reflexivity |].
  percent_free c H; simpl; rewrite IH by assumption; reflexivity.
Qed.

(** Filling the quoted placeholders of a clause, followed by text without
    placeholder. *)
Lemma format_clause (rest : string) (filled : list (string * string)) :
  Str.no_percent rest = true ->
  forall first,
    Str.no_percent first = true ->
    forallb Str.no_percent (map snd filled) = true ->
    Str.format
      (Str.quote_placeholders
         (Spec.clause_with_holes first (map snd filled) ++ rest))
      (map fst filled)
    = OK (Spec.clause_filled first filled ++ rest)%string.
Proof.
  intros Hrest.
  induction filled as [| [v s] filled IH]; intros first Hfirst Hall; simpl.
  - rewrite quote_placeholders_free, format_free; try reflexivity;
      rewrite no_percent_append, Hfirst, Hrest; reflexivity.
  - simpl in Hall; apply andb_true_iff in Hall; destruct Hall as [Hs Hall].
    rewrite !append_assoc.
    rewrite quote_placeholders_prefix by exact Hfirst.
    rewrite format_prefix by exact Hfirst.
    change (Str.quote_placeholders
              ("%s" ++ Spec.clause_with_holes s (map snd filled) ++ rest))
      with ("'%s'" ++
            Str.quote_placeholders
              (Spec.clause_with_holes s (map snd filled) ++ rest))%string.
    simpl.
    rewrite (IH s Hs Hall); simpl.
    rewrite !append_assoc; reflexivity.
Qed.

(** C9, as the code has it.  [Rule.sql] puts each placeholder of the
    source clause between single quotes and substitutes the text of the
    bound values as it is: for a clause whose text around the placeholders
    and a rule body that hold no percent sign, the rendering is the
    statement with each value copied between two quotes, whatever
    characters the value holds. *)
Theorem rule_sql_substitutes_verbatim :
  forall (r : Rule.t) (first : string) (filled : list (string * string)),
    Str.no_percent first = true ->
    forallb Str.no_percent (map snd filled) = true ->
    Str.no_percent (Rule.code r) = true ->
    Rule.sql r (Spec.clause_with_holes first (map snd filled))
             (map fst filled)
    = OK (Rule.sql_head ++ Spec.clause_filled first filled ++ " "
          ++ Rule.code r ++ Rule.sql_tail)%string.
Proof.
  intros r first filled Hfirst Hall Hcode.
  unfold Rule.sql; rewrite statement_ok.
  cbv beta iota delta [Py.bind Rule.statement_text].
  rewrite quote_placeholders_prefix by reflexivity.
  rewrite format_prefix by reflexivity.
  rewrite format_clause; try assumption.
  - reflexivity.
  - change (" " ++ Rule.code r ++ Rule.sql_tail)%string
      with (String " "%char (Rule.code r ++ Rule.sql_tail)).
    simpl; rewrite no_percent_append, Hcode; reflexivity.
Qed.

(** The claim C9 fails on the code: a bound value that holds a quote is
    rendered between quotes unchanged, where a safe quoting function
    doubles the quote. *)
Lemma rule_sql_quote_not_escaped :
  Rule.sql Sample.rule_a "name as (select %s as v)" ["O'Brien"]
  = OK (Rule.sql_head ++ "name as (select 'O'Brien' as v) select yes"
        ++ Rule.sql_tail)%string
  /\ Spec.sql_safely_quoted Sample.rule_a "name as (select %s as v)"
                            ["O'Brien"]
     = OK (Rule.sql_head ++ "name as (select 'O''Brien' as v) select yes"
           ++ Rule.sql_tail)%string
  /\ Rule.sql Sample.rule_a "name as (select %s as v)" ["O'Brien"]
     <> Spec.sql_safely_quoted Sample.rule_a "name as (select %s as v)"
                               ["O'Brien"].
Proof.
  split; [reflexivity | split; [reflexivity |]].
  vm_compute; intros H; discriminate H.
Qed.

(* ================================================================== *)
(** ** The type of a schema property *)

Lemma col_data_type_date_time (col_data : sdict JSON) :
  SyntaxSchema.get_is "format" col_data "date-time" = true ->
  SyntaxSchema._col_data_type (JObj col_data) = OK (Some "date").
Proof. intros H; simpl; rewrite H; reflexivity. Qed.

Lemma col_data_type_exception (col_data : sdict JSON) :
  SyntaxSchema.get_is "format" col_data "date-time" = false ->
  SyntaxSchema.get_is "$ref" col_data "#/definitions/ynexception" = true ->
  SyntaxSchema._col_data_type (JObj col_data) = OK (Some "text").
Proof. intros H1 H2; simpl; rewrite H1, H2; reflexivity. Qed.

Lemma col_data_type_primitive (col_data : sdict JSON) (ty : string) :
  SyntaxSchema.get_is "format" col_data "date-time" = false ->
  SyntaxSchema.get_is "$ref" col_data "#/definitions/ynexception" = false ->
  sget "type" col_data = Some (JStr ty) ->
  SyntaxSchema._col_data_type (JObj col_data)
  = OK (sget ty SyntaxSchema._JSONSCHEMA_TO_PG_TYPES).
Proof. intros H1 H2 H3; simpl; rewrite H1, H2, H3; reflexivity. Qed.

(** A union that keeps more than one type besides null is looked up in the
    table under [text], which is no key of the table. *)
Lemma col_data_type_union (col_data : sdict JSON) (types : list JSON) :
  SyntaxSchema.get_is "format" col_data "date-time" = false ->
  SyntaxSchema.get_is "$ref" col_data "#/definitions/ynexception" = false ->
  sget "type" col_data = Some (JList types) ->
  (1 < length (filter (fun dt => negb (json_is_str dt "null")) types))%nat ->
  SyntaxSchema._col_data_type (JObj col_data) = OK None.
Proof.
  intros H1 H2 H3 Hlen; simpl; rewrite H1, H2, H3.
  apply Nat.ltb_lt in Hlen; rewrite Hlen; reflexivity.
Qed.

(** C5, at the input where the code departs from it.  A property with the
    date-time format and the type string-or-null resolves to [date], and
    string-or-null alone to [text]; but a property whose union keeps two
    types besides null resolves to no type, not to [text], and gets no
    entry in the index. *)
Theorem col_data_type_union_unmapped :
  SyntaxSchema._col_data_type
    (JObj [("type", JList [JStr "string"; JStr "null"]);
           ("format", JStr "date-time")])
  = OK (Some "date")
  /\ SyntaxSchema._col_data_type
       (JObj [("type", JList [JStr "string"; JStr "null"])])
     = OK (Some "text")
  /\ SyntaxSchema._col_data_type
       (JObj [("type", JList [JStr "string"; JStr "integer"])])
     = OK None
  /\ SyntaxSchema.data_types 8 Sample.schema = OK [("age", "integer")].
Proof. repeat split. Qed.

(* ================================================================== *)
(** ** The properties on the sample ruleset *)

Example sample_calc :
  Ruleset.calc Sample.execute Sample.util_values_from_json Sample.py_int
               Sample.ruleset Sample.application
  = ([("state", JStr "AZ")], OK [(7%Z, Sample.report)]).
Proof. reflexivity. Qed.

Example sample_broken :
  Node.calc Sample.execute "WITH x" [] Sample.broken
  = Rule.calc Sample.execute Sample.rule_bad "WITH x" [].
Proof. reflexivity. Qed.

Lemma node_calc_explanation_limitation_witness :
  Finding.eligible Sample.finding_b = false
  /\ filter Spec.carries_limitation
            ([Sample.finding_a] ++ Sample.finding_b :: [Sample.root_finding])
     = filter Spec.carries_limitation
              ([Sample.finding_a] ++ [Sample.root_finding]).
Proof.
  split; [reflexivity |].
  apply (proj2 (proj2 (node_calc_explanation_limitation
                         Sample.execute "WITH x" [] Sample.root))).
  reflexivity.
Defined.

Lemma execution_error_propagates_witness :
  In Sample.rule_bad (Node.visit Sample.broken)
  /\ exists e r',
      Node.calc Sample.execute "WITH x" [] Sample.broken = Raise e
      /\ In r' (Node.visit Sample.broken)
      /\ Rule.calc Sample.execute r' "WITH x" [] = Raise e.
Proof.
  split; [simpl; auto |].
  apply (proj2 (proj2 (execution_error_propagates
                         Sample.execute "WITH x" []))
           Sample.broken Sample.rule_bad "syntax error at or near boom").
  - simpl; auto.
  - reflexivity.
Defined.

Lemma rule_calc_limitation_witness :
  Sample.execute (Rule.statement_text Sample.rule_b "WITH x") []
  = Rule.Fetched Sample.over_income
  /\ exists limitation,
      Rule.calc Sample.execute Sample.rule_b "WITH x" []
      = OK (Finding.OfRule false "income above limit" limitation)
      /\ (limitation = None <->
          Spec.empty_date None /\ Spec.empty_text (Some "over income"))
      /\ (limitation <> None ->
          limitation
          = Some (Limitation.Make None None (Some "over income") None)).
Proof.
  split; [reflexivity |].
  apply (@rule_calc_limitation Sample.execute "WITH x" []
                               Sample.rule_b Sample.over_income).
  reflexivity.
Defined.



Lemma no_sources_fails_witness :
  Sample.util_values_from_json [("id", JNum 7)]
                               (Ruleset.schema Sample.ruleset)
  = OK []
  /\ Ruleset.values_from_json Sample.util_values_from_json Sample.ruleset
                              [("id", JNum 7)]
     = Raise (ValueError "not enough values to unpack (expected 2, got 0)").
Proof.
  split; [reflexivity |].
  apply (proj1 (@no_sources_fails Sample.util_values_from_json
                                  Sample.ruleset [("id", JNum 7)])).
  reflexivity.
Defined.

Lemma ruleset_calc_report_witness :
  exists (applicants : JSON) (elements : list JSON) (element : JSON)
         (applicant : sdict JSON) clause data (fs : list Finding.t),
    sget "applicants" Sample.application = Some applicants
    /\ Ruleset.iterate applicants = OK elements
    /\ In element elements
    /\ Ruleset.applicant_info (sremove "applicants" Sample.application)
                              element
       = OK applicant
    /\ Ruleset.applicant_key Sample.py_int applicant = OK 7%Z
    /\ Ruleset.values_from_json Sample.util_values_from_json
                                Sample.ruleset applicant
       = OK (clause, data)
    /\ Py.mapM (Node.calc Sample.execute clause data)
               (Ruleset.node_set Sample.ruleset)
       = OK fs
    /\ Ruleset.assess Sample.execute Sample.util_values_from_json
                      Sample.py_int Sample.ruleset applicant
       = OK (7%Z, Sample.report)
    /\ let named :=
         combine (map Node.name (Ruleset.node_set Sample.ruleset)) fs in
       Report.eligible Sample.report
       = forallb Finding.eligible (map snd (Spec.general named))
       /\ sget "categories" (Report.requirements Sample.report) = None
       /\ (forall name,
              name <> "categories" ->
              sget name (Report.requirements Sample.report)
              = Spec.last_named name named)
       /\ Report.categories_findings Sample.report
          = match Spec.last_named "categories" named with
            | Some c => Finding.subfindings c
            | None => []
            end
       /\ Report.categories_applicable Sample.report
          = map fst (filter (fun kv => Finding.eligible (snd kv))
                            (Report.categories_findings Sample.report)).
Proof.
  apply (@ruleset_calc_report Sample.execute Sample.util_values_from_json
           Sample.py_int Sample.ruleset Sample.application
           [(7%Z, Sample.report)] 7%Z Sample.report).
  - reflexivity.
  - simpl; left; reflexivity.
Defined.

Lemma flattening_pops_applicants_witness :
  fst (Ruleset.calc Sample.execute Sample.util_values_from_json
                    Sample.py_int Sample.ruleset Sample.application)
  = [("state", JStr "AZ")]
  /\ Ruleset.calc Sample.execute Sample.util_values_from_json
                  Sample.py_int Sample.ruleset [("state", JStr "AZ")]
     = ([("state", JStr "AZ")], Raise (KeyError "applicants")).
Proof.
  destruct (@flattening_pops_applicants Sample.execute
              Sample.util_values_from_json Sample.py_int
              Sample.ruleset Sample.application)
    as [_ [Hcalc [_ [_ [_ [Hagain _]]]]]]; [reflexivity | reflexivity |].
  split; [exact Hcalc | exact Hagain].
Defined.

Lemma rule_sql_substitutes_verbatim_witness :
  Rule.sql Sample.rule_a "name as (select %s as v)" ["O'Brien"]
  = OK (Rule.sql_head ++ "name as (select 'O'Brien' as v)" ++ " "
        ++ "select yes" ++ Rule.sql_tail)%string.
Proof.
  apply (@rule_sql_substitutes_verbatim Sample.rule_a "name as (select "
           [("O'Brien", " as v)")]); reflexivity.
Defined.

(* ================================================================== *)
(** * Further properties *)

(** ** Dictionaries over any key with a decidable equality *)

Section DictFacts.
Variables (K V : Type) (eqb : K -> K -> bool).
Hypothesis eqb_spec : forall a b : K, reflect (a = b) (eqb a b).
Implicit Types (d : PyDict.t K V) (k : K) (v : V).

Lemma get_set_same k v d :
  PyDict.get eqb k (PyDict.set eqb k v d) = Some v.
Proof.
  induction d as [| [k' v'] d IH]; simpl.
  - destruct (eqb_spec k k); [reflexivity | contradiction].
  - destruct (eqb_spec k k') as [E | N]; simpl.
    + destruct (eqb_spec k k'); [reflexivity | contradiction].
    + destruct (eqb_spec k k'); [contradiction | exact IH].
Qed.

Lemma get_set_other k k' v d :
  k <> k' ->
  PyDict.get eqb k (PyDict.set eqb k' v d) = PyDict.get eqb k d.
Proof.
  intros Hne; induction d as [| [k2 v2] d IH]; simpl.
  - destruct (eqb_spec k k'); [contradiction | reflexivity].
  - destruct (eqb_spec k' k2) as [<- | N]; simpl.
    + destruct (eqb_spec k k'); [contradiction | reflexivity].
    + rewrite IH; reflexivity.
Qed.

(** After a sequence of assignments a key holds the value assigned to it
    last, or what it held before. *)
Lemma get_fold_set (l : list (K * V)) d k :
  PyDict.get eqb k
    (fold_left (fun acc kv => PyDict.set eqb (fst kv) (snd kv) acc) l d)
  = match PyDict.get eqb k (rev l) with
    | Some v => Some v
    | None => PyDict.get eqb k d
    end.
Proof.
  revert d; induction l as [| [k' v'] l IH] using rev_ind; intros d.
  - reflexivity.
  - rewrite fold_left_app, rev_unit; simpl.
    destruct (eqb_spec k k') as [<- | N].
    + apply get_set_same.
    + rewrite get_set_other by exact N; apply IH.
Qed.

Lemma In_set k v d kv :
  In kv (PyDict.set eqb k v d) -> kv = (k, v) \/ In kv d.
Proof.
  induction d as [| [k' v'] d IH]; simpl.
  - intros [<- | []]; auto.
  - destruct (eqb_spec k k') as [<- | N]; simpl.
    + intros [<- | Hin]; auto.
    + intros [<- | Hin]; auto.
      destruct (IH Hin); auto.
Qed.

Lemma get_None_not_In k d :
  PyDict.get eqb k d = None <-> ~ In k (PyDict.keys d).
Proof.
  induction d as [| [k' v'] d IH]; simpl.
  - split; auto.
  - destruct (eqb_spec k k') as [<- | N].
    + split; [discriminate | intros H; contradiction H; auto].
    + rewrite IH; split.
      * intros H [E | Hin]; [apply N; auto | auto].
      * intros H Hin; apply H; auto.
Qed.

Lemma keys_set k v d :
  PyDict.keys (PyDict.set eqb k v d)
  = match PyDict.get eqb k d with
    | Some _ => PyDict.keys d
    | None => PyDict.keys d ++ [k]
    end.
Proof.
  induction d as [| [k' v'] d IH]; simpl; [reflexivity |].
  destruct (eqb_spec k k') as [<- | N]; simpl; [reflexivity |].
  change (map fst (PyDict.set eqb k v d))
    with (PyDict.keys (PyDict.set eqb k v d)).
  rewrite IH; destruct (PyDict.get eqb k d); reflexivity.
Qed.

Lemma NoDup_keys_set k v d :
  NoDup (PyDict.keys d) -> NoDup (PyDict.keys (PyDict.set eqb k v d)).
Proof.
  rewrite keys_set.
  destruct (PyDict.get eqb k d) eqn:E; [auto |].
  intros Hnd; apply get_None_not_In in E.
  apply NoDup_app; [exact Hnd | repeat constructor; simpl; tauto |].
  intros x Hx [<- | []]; contradiction.
Qed.

Lemma NoDup_keys_fold_set (l : list (K * V)) d :
  NoDup (PyDict.keys d) ->
  NoDup (PyDict.keys
           (fold_left (fun acc kv => PyDict.set eqb (fst kv) (snd kv) acc)
                      l d)).
Proof.
  revert d; induction l as [| [k v] l IH]; simpl; intros d Hd; [exact Hd |].
  apply IH, NoDup_keys_set, Hd.
Qed.

Lemma nodupb_NoDup_iff (l : list K) :
  PyDict.nodupb eqb l = true <-> NoDup l.
Proof.
  induction l as [| k l IH]; simpl.
  - split; [constructor | reflexivity].
  - rewrite andb_true_iff, negb_true_iff, IH; split.
    + intros [Hk Hl]; constructor; [| exact Hl].
      intros Hin.
      assert (existsb (eqb k) l = true) as Hex.
      { apply existsb_exists; exists k; split; [exact Hin |].
        destruct (eqb_spec k k); [reflexivity | contradiction]. }
      rewrite Hex in Hk; discriminate.
    + intros Hnd; inversion Hnd as [| ? ? Hk Hl]; subst; split;
        [| exact Hl].
      destruct (existsb (eqb k) l) eqn:Hex; [| reflexivity].
      apply existsb_exists in Hex; destruct Hex as [k' [Hin Heq]].
      destruct (eqb_spec k k'); [subst k'; contradiction | discriminate].
Qed.

Lemma get_Some_In k v d :
  NoDup (PyDict.keys d) ->
  (PyDict.get eqb k d = Some v <-> In (k, v) d).
Proof.
  induction d as [| [k' v'] d IH]; simpl; intros Hnd.
  - split; [discriminate | contradiction].
  - inversion Hnd as [| ? ? Hk Hd]; subst.
    destruct (eqb_spec k k') as [<- | N].
    + split.
      * intros H; injection H as <-; auto.
      * intros [H | Hin]; [injection H as <-; reflexivity |].
        exfalso; apply Hk.
        change k with (fst (k, v)); apply in_map; exact Hin.
    + rewrite (IH Hd); split; [auto |].
      intros [H | Hin]; [injection H as <- <-; contradiction | exact Hin].
Qed.

Lemma get_rev k d :
  NoDup (PyDict.keys d) ->
  PyDict.get eqb k (rev d) = PyDict.get eqb k d.
Proof.
  intros Hnd.
  assert (Hrev : NoDup (PyDict.keys (rev d))).
  { unfold PyDict.keys; rewrite map_rev; apply NoDup_rev; exact Hnd. }
  destruct (PyDict.get eqb k d) as [v |] eqn:E.
  - apply (proj2 (@get_Some_In k v (rev d) Hrev)).
    apply (proj1 (in_rev d (k, v))).
    apply (proj1 (@get_Some_In k v d Hnd)); exact E.
  - destruct (PyDict.get eqb k (rev d)) as [v |] eqn:E'; [| reflexivity].
    apply (proj1 (@get_Some_In k v (rev d) Hrev)) in E'.
    apply (proj2 (in_rev d (k, v))) in E'.
    apply (proj2 (@get_Some_In k v d Hnd)) in E'.
    rewrite E' in E; discriminate.
Qed.

End DictFacts.

(** ** The records of [flattened] *)

Lemma sget_supdate (shared d : sdict JSON) (k : string) :
  swf d ->
  sget k (supdate shared d)
  = match sget k d with
    | Some v => Some v
    | None => sget k shared
    end.
Proof.
  intros Hd; unfold sget, supdate, PyDict.update.
  rewrite (@get_fold_set _ _ _ String.eqb_spec).
  rewrite (@get_rev _ _ _ String.eqb_spec); [reflexivity |].
  apply swf_NoDup; exact Hd.
Qed.

Lemma swf_sremove {V : Type} (k : string) (d : sdict V) :
  swf d -> swf (sremove k d).
Proof.
  rewrite !swf_NoDup; unfold sremove.
  induction d as [| [k' v'] d IH]; simpl; intros Hnd; [constructor |].
  inversion Hnd as [| ? ? Hk Hd]; subst.
  destruct (String.eqb k k'); [exact Hd |].
  simpl; constructor; [| apply IH; exact Hd].
  intros Hin; apply Hk.
  clear - Hin; induction d as [| [k2 v2] d IH]; simpl in *; [exact Hin |].
  destruct (String.eqb k k2); simpl in *; [right; exact Hin |].
  destruct Hin as [E | Hin]; [left; exact E | right; apply IH; exact Hin].
Qed.

Lemma swf_supdate (shared d : sdict JSON) :
  swf shared -> swf (supdate shared d).
Proof.
  rewrite !swf_NoDup; unfold supdate, PyDict.update.
  apply (@NoDup_keys_fold_set _ _ _ String.eqb_spec).
Qed.

Lemma records_objects (shared : sdict JSON) (ds : list (sdict JSON)) :
  Ruleset.records shared (map JObj ds) = (map (supdate shared) ds, None).
Proof.
  induction ds as [| d ds IH]; simpl; [reflexivity |].
  rewrite IH; reflexivity.
Qed.

(** X1. When [applicants] is a list of objects, [flattened] yields one
    record per applicant, in order and without exception: the shared fields
    of the payload (all but [applicants]) overlaid with the applicant's own
    fields.  In a record a key holds the applicant's value if the applicant
    has the key and the shared value otherwise; so the list [applicants]
    itself is in no record unless the applicant has a field of that
    name. *)
Theorem flattened_records :
  forall (application : sdict JSON) (ds : list (sdict JSON)),
    swf application ->
    Forall (fun d => swf d) ds ->
    sget "applicants" application = Some (JList (map JObj ds)) ->
    let shared := sremove "applicants" application in
    Ruleset.flattened application
    = (shared, (map (supdate shared) ds, None))
    /\ (forall d k,
           In d ds ->
           sget k (supdate shared d)
           = match sget k d with
             | Some v => Some v
             | None => sget k shared
             end)
    /\ (forall d,
           In d ds ->
           sget "applicants" (supdate shared d) = sget "applicants" d)
    /\ (forall d, In d ds -> swf (supdate shared d)).
Proof.
  intros application ds Hwf Hds Hget shared.
  assert (Hd : forall d, In d ds -> swf d)
    by (apply Forall_forall; exact Hds).
  split; [| split; [| split]].
  - unfold Ruleset.flattened, Ruleset.pop_applicants; rewrite Hget; simpl.
    rewrite records_objects; reflexivity.
  - intros d k Hin; apply sget_supdate, Hd, Hin.
  - intros d Hin; rewrite sget_supdate by (apply Hd, Hin).
    unfold shared; rewrite sget_sremove_same by exact Hwf.
    destruct (sget "applicants" d); reflexivity.
  - intros d Hin; apply swf_supdate, swf_sremove, Hwf.
Qed.

Lemma flattened_records_witness :
  Ruleset.flattened Derived.twins
  = ([("state", JStr "AZ")],
     ([[("state", JStr "AZ"); ("id", JNum 7); ("name", JStr "Ann")];
       [("state", JStr "NM"); ("id", JNum 7); ("name", JStr "Bob");
        ("income", JStr "high")]],
      None)).
Proof.
  apply (@flattened_records Derived.twins [Derived.ann; Derived.bob]).
  - reflexivity.
  - repeat constructor.
  - reflexivity.
Defined.

(** ** The loop of [Ruleset.calc] over the applicants *)

Section Applicants.
Variable execute : string -> list string -> Rule.Outcome.
Variable util_values_from_json :
  sdict JSON -> option SyntaxSchema.t -> res (list (string * string)).
Variable py_int : JSON -> res Z.

Local Abbreviation calc :=
  (Ruleset.calc execute util_values_from_json py_int).
Local Abbreviation assess :=
  (Ruleset.assess execute util_values_from_json py_int).
Local Abbreviation per_applicant :=
  (Derived.per_applicant execute util_values_from_json py_int).

Lemma applicants_loop_mapM self payload elements acc :
  Ruleset.applicants_loop execute util_values_from_json py_int
                          self payload elements acc
  = (reports <- Py.mapM (per_applicant self payload) elements ;;
     OK (fold_left (fun acc kr => PyDict.set Z.eqb (fst kr) (snd kr) acc)
                   reports acc)).
Proof.
  revert acc; induction elements as [| element elements IH]; intros acc;
    simpl; [reflexivity |].
  unfold Derived.per_applicant at 1.
  destruct (Ruleset.applicant_info payload element) as [info | e]; simpl;
    [| reflexivity].
  destruct (assess self info) as [[key report] | e]; simpl; [| reflexivity].
  rewrite IH.
  destruct (Py.mapM (per_applicant self payload) elements); reflexivity.
Qed.

Lemma calc_mapM self application applicants elements :
  sget "applicants" application = Some applicants ->
  Ruleset.iterate applicants = OK elements ->
  snd (calc self application)
  = (reports <-
       Py.mapM (per_applicant self (sremove "applicants" application))
               elements ;;
     OK (Derived.collect reports)).
Proof.
  intros Hget Hit.
  unfold Ruleset.calc, Ruleset.pop_applicants; rewrite Hget; simpl.
  rewrite Hit; simpl.
  apply applicants_loop_mapM.
Qed.

(** X2. [Ruleset.calc] returns reports only if the assessment of every
    applicant succeeds: its outcome is the reports of all applicants
    collected under their ids, or else the exception of the first applicant
    whose record or assessment raises, in the order of [applicants]; no
    report of another applicant is returned then. *)
Theorem calc_all_or_nothing :
  forall (self : Ruleset.t) (application : sdict JSON)
         (applicants : JSON) (elements : list JSON),
    sget "applicants" application = Some applicants ->
    Ruleset.iterate applicants = OK elements ->
    let shared := sremove "applicants" application in
    snd (calc self application)
    = (reports <- Py.mapM (per_applicant self shared) elements ;;
       OK (Derived.collect reports))
    /\ Py.error_of (snd (calc self application))
       = Py.first_error (map (per_applicant self shared) elements).
Proof.
  intros self application applicants elements Hget Hit shared.
  rewrite (@calc_mapM self application applicants elements Hget Hit);
    fold shared.
  split; [reflexivity |].
  rewrite <- error_of_mapM.
  destruct (Py.mapM (per_applicant self shared) elements); reflexivity.
Qed.

(** X3. The overall result of [Ruleset.calc] holds each id once, and under
    an id the report of the last applicant with this id: the report of an
    earlier applicant with the same id is replaced. *)
Theorem calc_same_id_last_wins :
  forall (self : Ruleset.t) (application : sdict JSON)
         (applicants : JSON) (elements : list JSON)
         (reports : list (Z * Report.t)),
    sget "applicants" application = Some applicants ->
    Ruleset.iterate applicants = OK elements ->
    Py.mapM (per_applicant self (sremove "applicants" application)) elements
    = OK reports ->
    exists overall,
      snd (calc self application) = OK overall
      /\ PyDict.wf Z.eqb overall
      /\ (forall key,
             PyDict.get Z.eqb key overall
             = PyDict.get Z.eqb key (rev reports)).
Proof.
  intros self application applicants elements reports Hget Hit Hm.
  exists (Derived.collect reports); split; [| split].
  - rewrite (@calc_mapM self application applicants elements Hget Hit), Hm;
      reflexivity.
  - apply (proj2 (@nodupb_NoDup_iff _ Z.eqb Z.eqb_spec _)).
    apply (@NoDup_keys_fold_set _ _ _ Z.eqb_spec); constructor.
  - intros key; unfold Derived.collect.
    rewrite (@get_fold_set _ _ _ Z.eqb_spec).
    destruct (PyDict.get Z.eqb key (rev reports)); reflexivity.
Qed.

(** X4. An applicant without [id] gets no report: the assessment raises,
    and when the sources compile and every root evaluates the exception is
    [KeyError] for [id], raised after the rules have been evaluated. *)
Theorem assess_without_id :
  forall (self : Ruleset.t) (applicant : sdict JSON),
    sget "id" applicant = None ->
    (exists e, assess self applicant = Raise e)
    /\ (forall clause data fs,
           Ruleset.values_from_json util_values_from_json self applicant
           = OK (clause, data) ->
           Py.mapM (Node.calc execute clause data) (Ruleset.node_set self)
           = OK fs ->
           assess self applicant = Raise (KeyError "id")).
Proof.
  intros self applicant Hid.
  assert (Hkey : Ruleset.applicant_key py_int applicant
                 = Raise (KeyError "id"))
    by (unfold Ruleset.applicant_key; rewrite Hid; reflexivity).
  split.
  - unfold Ruleset.assess.
    destruct (Ruleset.values_from_json util_values_from_json self applicant)
      as [[clause data] | e]; simpl; [| eauto].
    destruct (Ruleset.roots_loop execute clause data (Ruleset.node_set self)
                                 [] true) as [[reqs el] | e]; simpl;
      [| eauto].
    rewrite Hkey; simpl; eauto.
  - intros clause data fs Hv Hm.
    unfold Ruleset.assess; rewrite Hv; simpl.
    rewrite roots_loop_mapM, Hm; simpl.
    rewrite Hkey; reflexivity.
Qed.

End Applicants.

Lemma calc_all_or_nothing_witness :
  snd (Ruleset.calc Sample.execute Sample.util_values_from_json
                    Sample.py_int Sample.ruleset
                    [("applicants",
                      JList [JObj Derived.ann; JObj Derived.anonymous])])
  = Raise (KeyError "id").
Proof.
  destruct (@calc_all_or_nothing Sample.execute Sample.util_values_from_json
              Sample.py_int Sample.ruleset
              [("applicants",
                JList [JObj Derived.ann; JObj Derived.anonymous])]
              (JList [JObj Derived.ann; JObj Derived.anonymous])
              [JObj Derived.ann; JObj Derived.anonymous])
    as [Hcalc _]; [reflexivity | reflexivity |].
  rewrite Hcalc; reflexivity.
Defined.

Lemma calc_same_id_last_wins_witness :
  exists overall,
    snd (Ruleset.calc Sample.execute Sample.util_values_from_json
                      Sample.py_int Sample.ruleset Derived.twins)
    = OK overall
    /\ PyDict.wf Z.eqb overall
    /\ (forall key,
           PyDict.get Z.eqb key overall
           = PyDict.get Z.eqb key (rev Derived.twins_reports)).
Proof.
  apply (@calc_same_id_last_wins Sample.execute Sample.util_values_from_json
           Sample.py_int Sample.ruleset Derived.twins
           (JList [JObj Derived.ann; JObj Derived.bob])
           [JObj Derived.ann; JObj Derived.bob] Derived.twins_reports);
    reflexivity.
Defined.

Lemma assess_without_id_witness :
  Ruleset.assess Sample.execute Sample.util_values_from_json Sample.py_int
                 Sample.ruleset Derived.anonymous
  = Raise (KeyError "id").
Proof.
  destruct (@assess_without_id Sample.execute Sample.util_values_from_json
              Sample.py_int Sample.ruleset Derived.anonymous)
    as [_ H]; [reflexivity |].
  eapply H; reflexivity.
Defined.

(** ** Further properties of [Node.calc] *)

Lemma mapM_Forall2 {A B : Type} (f : A -> res B) (l : list A) (ys : list B) :
  Py.mapM f l = OK ys -> Forall2 (fun x y => f x = OK y) l ys.
Proof.
  revert ys; induction l as [| x l IH]; simpl; intros ys H.
  - injection H as <-; constructor.
  - destruct (f x) as [y | e] eqn:E; simpl in H; [| discriminate].
    destruct (Py.mapM f l) as [ys' | e]; simpl in H; [| discriminate].
    injection H as <-; constructor; [exact E | apply IH; reflexivity].
Qed.

Lemma Forall2_related {A B : Type} (R : B -> B -> Prop)
      (f g : A -> res B) (l : list A) (ys zs : list B) :
  Forall2 (fun x y => f x = OK y) l ys ->
  Forall2 (fun x z => g x = OK z) l zs ->
  (forall x y z, In x l -> f x = OK y -> g x = OK z -> R y z) ->
  Forall2 R ys zs.
Proof.
  intros Hf; revert zs; induction Hf as [| x y l ys Hx _ IH];
    intros zs Hg HR; inversion Hg as [| ? z ? zs' Hz Hg']; subst;
    constructor.
  - apply (HR x); simpl; auto.
  - apply IH; [exact Hg' |].
    intros x' y' z' Hin; apply HR; simpl; auto.
Qed.

Lemma Forall2_all {A B : Type} (P : B -> Prop) (f : A -> res B)
      (l : list A) (ys : list B) :
  Forall2 (fun x y => f x = OK y) l ys ->
  (forall x y, In x l -> f x = OK y -> P y) ->
  Forall P ys.
Proof.
  intros Hf; induction Hf as [| x y l ys Hx _ IH]; intros HP; constructor.
  - apply (HP x); simpl; auto.
  - apply IH; intros x' y' Hin; apply HP; simpl; auto.
Qed.

Lemma aggregate_monotone (ra : bool) (l1 l2 : list Finding.t) :
  Forall2 (fun a b => Finding.eligible a = true -> Finding.eligible b = true)
          l1 l2 ->
  Spec.aggregate ra l1 = true -> Spec.aggregate ra l2 = true.
Proof.
  unfold Spec.aggregate; intros H.
  induction H as [| a b l1 l2 Hab _ IH]; [auto |].
  destruct ra; simpl in *.
  - rewrite !andb_true_iff; intros [Ha Hl]; auto.
  - rewrite !orb_true_iff; intros [Ha | Hl]; auto.
Qed.

Lemma aggregate_constant (ra b : bool) (l : list Finding.t) :
  l <> [] ->
  Forall (fun f => Finding.eligible f = b) l ->
  Spec.aggregate ra l = b.
Proof.
  intros Hne H; unfold Spec.aggregate.
  induction H as [| f l Hf Hl IH]; [contradiction Hne; reflexivity |].
  destruct l as [| g l].
  - destruct ra; simpl; rewrite Hf;
      [apply andb_true_r | apply orb_false_r].
  - assert (IH' := IH ltac:(discriminate)).
    destruct ra; simpl in *; rewrite Hf, IH'; destruct b; reflexivity.
Qed.

Lemma populated_Make nm ra children rules :
  Derived.populated (Node.Make nm ra children rules)
  = negb (match children, rules with [], [] => true | _, _ => false end)
    && forallb Derived.populated children.
Proof. reflexivity. Qed.

Lemma solid_LimList (ls : list LimitationValue) :
  Derived.solid (LimList ls)
  = match ls with
    | [] => false
    | _ :: _ => forallb Derived.solid ls
    end.
Proof. destruct ls; reflexivity. Qed.

Lemma sset_fresh {V : Type} (k : string) (v : V) (d : sdict V) :
  ~ In k (PyDict.keys d) -> sset k v d = d ++ [(k, v)].
Proof.
  unfold sset; induction d as [| [k' v'] d IH]; simpl; intros H;
    [reflexivity |].
  destruct (String.eqb_spec k k') as [-> | N]; [contradiction H; auto |].
  rewrite IH; [reflexivity | intros Hin; apply H; auto].
Qed.

Lemma store_fresh (l : list (string * Finding.t)) (d : sdict Finding.t) :
  NoDup (PyDict.keys d ++ map fst l) -> Spec.store l d = d ++ l.
Proof.
  unfold Spec.store; revert d; induction l as [| [k v] l IH]; simpl;
    intros d Hnd.
  - rewrite app_nil_r; reflexivity.
  - rewrite sset_fresh.
    + rewrite IH; [rewrite <- app_assoc; reflexivity |].
      unfold PyDict.keys; rewrite map_app, <- app_assoc; exact Hnd.
    + apply NoDup_remove_2 in Hnd.
      intros Hin; apply Hnd, in_or_app; left; exact Hin.
Qed.

Lemma absorb_all_subfindings ra l fr :
  Node.subfindings (Node.absorb_all ra l fr)
  = Spec.store l (Node.subfindings fr).
Proof.
  revert fr; induction l as [| [nm f] l IH]; intros fr; [reflexivity |].
  change (Node.absorb_all ra ((nm, f) :: l) fr)
    with (Node.absorb_all ra l (Node.absorb_child ra nm f fr)).
  rewrite IH; reflexivity.
Qed.

Section NodeFacts.
Variable execute : string -> list string -> Rule.Outcome.
Variable source_clause : string.
Variable source_data : list string.

Local Abbreviation ncalc := (Node.calc execute source_clause source_data).
Local Abbreviation rcalc :=
  (fun rule => Rule.calc execute rule source_clause source_data).

(** X5. The [subfindings] of a node's result hold, under the name of each
    direct child (child node or rule), the full result of the last child of
    that name in the order of the visit, so a rule replaces a child node of
    the same name; when the names of the children differ, [subfindings] is
    the results of all children under their names, in the order of the
    visit. *)
Theorem node_calc_subfindings :
  forall (n : Node.t) (cfs rfs : list Finding.t),
    Py.mapM ncalc (Node.node_set n) = OK cfs ->
    Py.mapM rcalc (Node.rule_set n) = OK rfs ->
    let named :=
      combine (map Node.name (Node.node_set n)) cfs
      ++ combine (map Rule.name (Node.rule_set n)) rfs in
    exists res,
      ncalc n = OK res
      /\ swf (Finding.subfindings res)
      /\ (forall name,
             sget name (Finding.subfindings res)
             = Spec.last_named name named)
      /\ (NoDup (map fst named) -> Finding.subfindings res = named).
Proof.
  intros n cfs rfs Hc Hr named.
  rewrite calc_closed, Hc, Hr; simpl.
  eexists; split; [reflexivity |]; simpl.
  unfold Node.final_frame; rewrite absorb_all_subfindings; simpl.
  fold named; split; [| split].
  - apply swf_store; reflexivity.
  - intros name; unfold Spec.store; rewrite sget_store.
    destruct (Spec.last_named name named); reflexivity.
  - intros Hnd; apply store_fresh; exact Hnd.
Qed.

(** X6. The limitation list of a node's result holds no [None] and no
    empty list, at any depth: each entry is the limitation of a rule or the
    non-empty limitation list of a child node, which is of this kind
    again. *)
Theorem node_calc_limitation_solid :
  forall (n : Node.t) (res : Finding.t),
    ncalc n = OK res ->
    exists ls,
      Finding.limitation res = LimList ls
      /\ Forall (fun l => Derived.solid l = true) ls.
Proof.
  induction n as [nm ra children rules IH] using Node_induction.
  intros res Hres; rewrite calc_closed in Hres; simpl in Hres.
  destruct (Py.mapM ncalc children) as [cfs | e] eqn:Hc; simpl in Hres;
    [| discriminate].
  destruct (Py.mapM rcalc rules) as [rfs | e] eqn:Hr; simpl in Hres;
    [| discriminate].
  injection Hres as <-; simpl.
  eexists; split; [reflexivity |].
  rewrite final_frame_limitation
    by (simpl; eapply mapM_length; eassumption).
  assert (Hcs : Forall (fun f => Spec.carries_limitation f = true ->
                                 Derived.solid (Finding.limitation f) = true)
                       cfs).
  { apply mapM_Forall2 in Hc; clear Hr.
    induction Hc as [| c f children cfs Hcf _ IHc]; constructor.
    - inversion IH as [| ? ? Hc0 _]; subst.
      destruct (Hc0 f Hcf) as [ls [Hls Hall]].
      unfold Spec.carries_limitation; rewrite Hls.
      intros H; apply andb_true_iff in H; destruct H as [_ H].
      rewrite solid_LimList.
      destruct ls as [| l ls]; [discriminate |].
      apply forallb_forall; intros x Hx.
      exact (proj1 (Forall_forall _ _) Hall x Hx).
    - apply IHc; inversion IH; assumption. }
  assert (Hrs : Forall (fun f => Spec.carries_limitation f = true ->
                                 Derived.solid (Finding.limitation f) = true)
                       rfs).
  { apply mapM_Forall2 in Hr.
    eapply Forall2_all; [exact Hr |]; intros r f _ Hf.
    unfold Rule.calc in Hf; rewrite statement_ok in Hf; simpl in Hf.
    destruct (execute (Rule.statement_text r source_clause) source_data)
      as [cause | | row]; try discriminate.
    injection Hf as <-; simpl.
    destruct (negb (Rule.date_truthy (Rule.row_end_date row))
              && negb (Rule.text_truthy (Rule.row_description row)));
      auto.
    unfold Spec.carries_limitation; simpl; rewrite andb_false_r.
    discriminate. }
  apply Forall_forall; intros l Hl.
  apply in_map_iff in Hl; destruct Hl as [f [<- Hf]].
  apply filter_In in Hf; destruct Hf as [Hin Hcarry].
  apply in_app_or in Hin; destruct Hin as [Hin | Hin].
  - exact (proj1 (Forall_forall _ _) Hcs f Hin Hcarry).
  - exact (proj1 (Forall_forall _ _) Hrs f Hin Hcarry).
Qed.

(** X7. In a tree in which every node has a child node or a rule, a node
    is eligible when every rule below it is, and not eligible when no rule
    below it is, whatever the [requires_all] flags. *)
Theorem node_calc_unanimous :
  forall (n : Node.t) (res : Finding.t) (b : bool),
    Derived.populated n = true ->
    ncalc n = OK res ->
    (forall r f, In r (Node.visit n) -> rcalc r = OK f ->
                 Finding.eligible f = b) ->
    Finding.eligible res = b.
Proof.
  induction n as [nm ra children rules IH] using Node_induction.
  intros res b Hpop Hres Hall.
  rewrite populated_Make in Hpop; apply andb_true_iff in Hpop.
  destruct Hpop as [Hsome Hpop].
  rewrite visit_Make in Hall.
  rewrite calc_closed in Hres; simpl in Hres.
  destruct (Py.mapM ncalc children) as [cfs | e] eqn:Hc; simpl in Hres;
    [| discriminate].
  destruct (Py.mapM rcalc rules) as [rfs | e] eqn:Hr; simpl in Hres;
    [| discriminate].
  injection Hres as <-; simpl.
  pose proof (mapM_length _ _ Hc) as Lc.
  pose proof (mapM_length _ _ Hr) as Lr.
  rewrite final_frame_eligibility by (simpl; assumption); simpl.
  apply aggregate_constant.
  - destruct children, rules, cfs, rfs; simpl in *; try discriminate.
  - apply Forall_app; split.
    + apply mapM_Forall2 in Hc.
      eapply Forall2_all; [exact Hc |]; intros c f Hin Hf.
      apply (proj1 (Forall_forall _ _) IH c Hin f b).
      * exact (proj1 (forallb_forall _ _) Hpop c Hin).
      * exact Hf.
      * intros r f' Hr' Hf'; apply (Hall r f'); [| exact Hf'].
        apply in_or_app; left; apply in_flat_map; exists c; auto.
    + apply mapM_Forall2 in Hr.
      eapply Forall2_all; [exact Hr |]; intros r f Hin Hf.
      apply (Hall r f); [apply in_or_app; right; exact Hin | exact Hf].
Qed.

End NodeFacts.

(** X8. Eligibility is monotone in the verdicts of the rules: if a node is
    eligible with one database, it is eligible with every database in which
    each rule below it that was eligible still is (both evaluations
    returning results). *)
Theorem node_calc_monotone :
  forall (execute1 execute2 : string -> list string -> Rule.Outcome)
         (source_clause : string) (source_data : list string)
         (n : Node.t) (res1 res2 : Finding.t),
    (forall r f1 f2,
        In r (Node.visit n) ->
        Rule.calc execute1 r source_clause source_data = OK f1 ->
        Rule.calc execute2 r source_clause source_data = OK f2 ->
        Finding.eligible f1 = true -> Finding.eligible f2 = true) ->
    Node.calc execute1 source_clause source_data n = OK res1 ->
    Node.calc execute2 source_clause source_data n = OK res2 ->
    Finding.eligible res1 = true -> Finding.eligible res2 = true.
Proof.
  intros execute1 execute2 clause data.
  induction n as [nm ra children rules IH] using Node_induction.
  intros res1 res2 Hrules H1 H2.
  rewrite visit_Make in Hrules.
  rewrite calc_closed in H1, H2; simpl in H1, H2.
  destruct (Py.mapM (Node.calc execute1 clause data) children)
    as [cfs1 | e] eqn:Hc1; simpl in H1; [| discriminate].
  destruct (Py.mapM (fun rule => Rule.calc execute1 rule clause data) rules)
    as [rfs1 | e] eqn:Hr1; simpl in H1; [| discriminate].
  destruct (Py.mapM (Node.calc execute2 clause data) children)
    as [cfs2 | e] eqn:Hc2; simpl in H2; [| discriminate].
  destruct (Py.mapM (fun rule => Rule.calc execute2 rule clause data) rules)
    as [rfs2 | e] eqn:Hr2; simpl in H2; [| discriminate].
  injection H1 as <-; injection H2 as <-; simpl.
  rewrite !final_frame_eligibility
    by (simpl; eapply mapM_length; eassumption).
  simpl; apply aggregate_monotone, Forall2_app.
  - apply mapM_Forall2 in Hc1, Hc2.
    eapply Forall2_related; [exact Hc1 | exact Hc2 |]; intros c f1 f2 Hin Hf1 Hf2.
    apply (proj1 (Forall_forall _ _) IH c Hin f1 f2); try assumption.
    intros r g1 g2 Hr; apply Hrules.
    apply in_or_app; left; apply in_flat_map; exists c; auto.
  - apply mapM_Forall2 in Hr1, Hr2.
    eapply Forall2_related; [exact Hr1 | exact Hr2 |]; intros r f1 f2 Hin Hf1 Hf2.
    apply (Hrules r); [apply in_or_app; right; exact Hin | | ]; assumption.
Qed.

Lemma node_calc_subfindings_witness :
  exists res,
    Node.calc Sample.execute "WITH x" [] Sample.root = OK res
    /\ swf (Finding.subfindings res)
    /\ (forall name,
           sget name (Finding.subfindings res)
           = Spec.last_named name
               [("A", Sample.finding_a); ("B", Sample.finding_b)])
    /\ (NoDup ["A"; "B"] ->
        Finding.subfindings res
        = [("A", Sample.finding_a); ("B", Sample.finding_b)]).
Proof.
  apply (@node_calc_subfindings Sample.execute "WITH x" [] Sample.root
           [] [Sample.finding_a; Sample.finding_b]); reflexivity.
Defined.

Lemma node_calc_limitation_solid_witness :
  exists ls,
    Finding.limitation
      (Derived.result_of (Node.calc Derived.limited "WITH x" []
                                    Derived.outer))
    = LimList ls
    /\ Forall (fun l => Derived.solid l = true) ls.
Proof.
  apply (@node_calc_limitation_solid Derived.limited "WITH x" []
           Derived.outer).
  reflexivity.
Defined.

Lemma node_calc_unanimous_witness :
  Finding.eligible
    (Derived.result_of (Node.calc Derived.generous "WITH x" []
                                  Derived.outer))
  = true.
Proof.
  apply (@node_calc_unanimous Derived.generous "WITH x" [] Derived.outer).
  - reflexivity.
  - reflexivity.
  - intros r f _ H; vm_compute in H; injection H as <-; reflexivity.
Defined.

Lemma node_calc_monotone_witness :
  Finding.eligible
    (Derived.result_of (Node.calc Derived.generous "WITH x" []
                                  Derived.outer))
  = true.
Proof.
  apply (@node_calc_monotone Sample.execute Derived.generous "WITH x" []
           Derived.outer
           (Derived.result_of (Node.calc Sample.execute "WITH x" []
                                         Derived.outer))).
  - intros r f1 f2 _ _ H _; vm_compute in H; injection H as <-;
      reflexivity.
  - reflexivity.
  - reflexivity.
  - reflexivity.
Defined.

(** ** [Rule.sql] when placeholders and values do not match *)

Lemma format_free_left_over (a v : string) (vs : list string) :
  Str.no_percent a = true ->
  Str.format a (v :: vs)
  = Raise (TypeError "not all arguments converted during string formatting").
Proof.
  induction a as [| c a IH]; intros H; [reflexivity |].
  percent_free c H; simpl; rewrite IH by assumption; reflexivity.
Qed.

Lemma format_holes_short (rest : string) (after : list string) :
  Str.no_percent rest = true ->
  forall first data,
    Str.no_percent first = true ->
    forallb Str.no_percent after = true ->
    length data < length after ->
    Str.format
      (Str.quote_placeholders (Spec.clause_with_holes first after ++ rest))
      data
    = Raise (TypeError "not enough arguments for format string").
Proof.
  intros Hrest.
  induction after as [| s after IH]; intros first data Hfirst Hall Hlen;
    simpl in Hlen; [lia |].
  simpl in Hall; apply andb_true_iff in Hall; destruct Hall as [Hs Hall].
  simpl Spec.clause_with_holes.
  rewrite !append_assoc.
  rewrite quote_placeholders_prefix by exact Hfirst.
  rewrite format_prefix by exact Hfirst.
  change (Str.quote_placeholders
            ("%s" ++ Spec.clause_with_holes s after ++ rest))
    with ("'%s'" ++
          Str.quote_placeholders
            (Spec.clause_with_holes s after ++ rest))%string.
  destruct data as [| v data]; [reflexivity |].
  simpl; rewrite (IH s data Hs Hall) by (simpl in Hlen; lia).
  reflexivity.
Qed.

Lemma format_holes_long (rest : string) (after : list string) :
  Str.no_percent rest = true ->
  forall first data,
    Str.no_percent first = true ->
    forallb Str.no_percent after = true ->
    length after < length data ->
    Str.format
      (Str.quote_placeholders (Spec.clause_with_holes first after ++ rest))
      data
    = Raise (TypeError
               "not all arguments converted during string formatting").
Proof.
  intros Hrest.
  induction after as [| s after IH]; intros first data Hfirst Hall Hlen.
  - destruct data as [| v data]; [simpl in Hlen; lia |].
    simpl Spec.clause_with_holes.
    rewrite quote_placeholders_free, format_free_left_over;
      try reflexivity; rewrite no_percent_append, Hfirst, Hrest;
      reflexivity.
  - simpl in Hall; apply andb_true_iff in Hall; destruct Hall as [Hs Hall].
    destruct data as [| v data]; [simpl in Hlen; lia |].
    simpl Spec.clause_with_holes.
    rewrite !append_assoc.
    rewrite quote_placeholders_prefix by exact Hfirst.
    rewrite format_prefix by exact Hfirst.
    change (Str.quote_placeholders
              ("%s" ++ Spec.clause_with_holes s after ++ rest))
      with ("'%s'" ++
            Str.quote_placeholders
              (Spec.clause_with_holes s after ++ rest))%string.
    simpl; rewrite (IH s data Hs Hall) by (simpl in Hlen; lia).
    reflexivity.
Qed.

Lemma statement_rest_free (r : Rule.t) :
  Str.no_percent (Rule.code r) = true ->
  Str.no_percent (" " ++ Rule.code r ++ Rule.sql_tail) = true.
Proof.
  intros Hcode.
  change (" " ++ Rule.code r ++ Rule.sql_tail)%string
    with (String " "%char (Rule.code r ++ Rule.sql_tail)).
  simpl; rewrite no_percent_append, Hcode; reflexivity.
Qed.

(** X9. [Rule.sql] raises [TypeError] when the number of bound values
    differs from the number of placeholders of the source clause (the text
    around the placeholders and the rule body holding no percent sign): too
    few values are not enough arguments for the format, too many are not
    all converted; no statement is rendered. *)
Theorem rule_sql_arity :
  forall (r : Rule.t) (first : string) (after data : list string),
    Str.no_percent first = true ->
    forallb Str.no_percent after = true ->
    Str.no_percent (Rule.code r) = true ->
    (length data < length after ->
     Rule.sql r (Spec.clause_with_holes first after) data
     = Raise (TypeError "not enough arguments for format string"))
    /\ (length after < length data ->
        Rule.sql r (Spec.clause_with_holes first after) data
        = Raise (TypeError
                   "not all arguments converted during string formatting")).
Proof.
  intros r first after data Hfirst Hall Hcode.
  pose proof (statement_rest_free r Hcode) as Hrest.
  split; intros Hlen; unfold Rule.sql; rewrite statement_ok;
    cbv beta iota delta [Py.bind Rule.statement_text];
    rewrite quote_placeholders_prefix by reflexivity;
    rewrite format_prefix by reflexivity.
  - rewrite format_holes_short by assumption; reflexivity.
  - rewrite format_holes_long by assumption; reflexivity.
Qed.

Lemma rule_sql_arity_witness :
  Rule.sql Sample.rule_a "name as (select %s as v), age as (select %s)"
           ["Ann"]
  = Raise (TypeError "not enough arguments for format string")
  /\ Rule.sql Sample.rule_a "name as (select %s as v)" ["Ann"; "7"]
     = Raise (TypeError
                "not all arguments converted during string formatting").
Proof.
  split.
  - apply (proj1 (@rule_sql_arity Sample.rule_a "name as (select "
                    [" as v), age as (select "; ")"] ["Ann"]
                    eq_refl eq_refl eq_refl)).
    simpl; lia.
  - apply (proj2 (@rule_sql_arity Sample.rule_a "name as (select "
                    [" as v)"] ["Ann"; "7"]
                    eq_refl eq_refl eq_refl)).
    simpl; lia.
Defined.

(** ** Generators run to their end *)

Lemma gen_app_None {A : Type} (g1 g2 : gen A) :
  snd (Py.gen_app g1 g2) = None ->
  snd g1 = None /\ snd g2 = None
  /\ fst (Py.gen_app g1 g2) = fst g1 ++ fst g2.
Proof.
  unfold Py.gen_app; destruct g1 as [l1 [e1 |]]; simpl;
    [discriminate | auto].
Qed.

Lemma gen_concat_None {A : Type} (gs : list (gen A)) :
  snd (Py.gen_concat gs) = None ->
  Forall (fun g => snd g = None) gs
  /\ fst (Py.gen_concat gs) = concat (map fst gs).
Proof.
  induction gs as [| g gs IH]; simpl; intros H; [auto |].
  apply gen_app_None in H; destruct H as [Hg [Hgs Hfst]].
  destruct (IH Hgs) as [Hall Hcat].
  split; [constructor; assumption |].
  rewrite Hfst; fold (Py.gen_concat gs); rewrite Hcat; reflexivity.
Qed.

Lemma gen_of_res_length {A B : Type} (f : A -> res B) (l : list A) :
  snd (Py.gen_concat (map (fun x => Py.gen_of_res (f x)) l)) = None ->
  length (fst (Py.gen_concat (map (fun x => Py.gen_of_res (f x)) l)))
  = length l.
Proof.
  induction l as [| x l IH]; intros H; [reflexivity |].
  change (Py.gen_concat (map (fun x => Py.gen_of_res (f x)) (x :: l)))
    with (Py.gen_app (Py.gen_of_res (f x))
                     (Py.gen_concat
                        (map (fun x => Py.gen_of_res (f x)) l))) in *.
  apply gen_app_None in H; destruct H as [Hx [Hrest ->]].
  rewrite length_app, (IH Hrest).
  destruct (f x); simpl in *; [reflexivity | discriminate].
Qed.

Lemma node_sql_length (n : Node.t) (clause : string) (data : list string) :
  snd (Node.sql n clause data) = None ->
  length (fst (Node.sql n clause data)) = length (Node.rule_set n).
Proof.
  unfold Node.sql.
  apply (gen_of_res_length (fun rule => Rule.sql rule clause data)).
Qed.

Lemma gen_concat_length {A B : Type} (g : A -> gen B) (size : A -> nat)
      (l : list A) :
  (forall x, snd (g x) = None -> length (fst (g x)) = size x) ->
  snd (Py.gen_concat (map g l)) = None ->
  length (fst (Py.gen_concat (map g l))) = list_sum (map size l).
Proof.
  intros Hg; induction l as [| x l IH]; intros H; [reflexivity |].
  change (Py.gen_concat (map g (x :: l)))
    with (Py.gen_app (g x) (Py.gen_concat (map g l))) in *.
  apply gen_app_None in H; destruct H as [Hx [Hrest ->]].
  rewrite length_app, (IH Hrest), (Hg x Hx); reflexivity.
Qed.

Lemma length_flat_map {A B : Type} (f : A -> list B) (l : list A) :
  length (flat_map f l) = list_sum (map (fun x => length (f x)) l).
Proof.
  induction l as [| x l IH]; simpl; [reflexivity |].
  rewrite length_app, IH; reflexivity.
Qed.

(** ** Source compilation and [Ruleset.sql] *)

Section Sources.
Variable util_values_from_json :
  sdict JSON -> option SyntaxSchema.t -> res (list (string * string)).

Local Abbreviation values_from_json :=
  (Ruleset.values_from_json util_values_from_json).
Local Abbreviation sql := (Ruleset.sql util_values_from_json).

(** X10. [null_sources] whose names are all fields of the record have no
    effect on source compilation: no fallback fragment is yielded and the
    outcome is that of the ruleset without [null_sources]. *)
Theorem null_sources_present_no_effect :
  forall (self : Ruleset.t) (raw : sdict JSON),
    (forall name,
        In name (PyDict.keys (Ruleset.null_sources self)) ->
        smem name raw = true) ->
    Ruleset.null_source_sql self raw = []
    /\ values_from_json self raw
       = values_from_json (Derived.without_null_sources self) raw.
Proof.
  intros self raw Hall.
  assert (Hnone : Ruleset.null_source_sql self raw = []).
  { unfold Ruleset.null_source_sql, PyDict.items.
    revert Hall; generalize (Ruleset.null_sources self).
    intros d; induction d as [| [k v] d IH]; simpl; intros Hall;
      [reflexivity |].
    rewrite (Hall k) by auto; simpl.
    apply IH; intros name Hin; apply Hall; auto. }
  split; [exact Hnone |].
  unfold Ruleset.values_from_json; rewrite Hnone; reflexivity.
Qed.

Lemma sql_of_applicant_length self applicant :
  snd (Ruleset.sql_of_applicant util_values_from_json self applicant)
  = None ->
  length (fst (Ruleset.sql_of_applicant util_values_from_json
                                        self applicant))
  = length (flat_map Node.rule_set (Ruleset.node_set self)).
Proof.
  unfold Ruleset.sql_of_applicant.
  destruct (values_from_json self applicant) as [[clause data] | e];
    [| discriminate].
  intros H; rewrite length_flat_map.
  apply (gen_concat_length
           (fun node => Node.sql node clause data)
           (fun node => length (Node.rule_set node))); [| exact H].
  intros n Hn; apply node_sql_length; exact Hn.
Qed.

(** X11. When [Ruleset.sql] runs to its end without exception over
    applicants that are objects, it has yielded one statement for each
    applicant and each rule that belongs to a node of [node_set] itself:
    the rules of nodes further down are not rendered. *)
Theorem ruleset_sql_count :
  forall (self : Ruleset.t) (application : sdict JSON)
         (ds : list (sdict JSON)) (out : list string),
    sget "applicants" application = Some (JList (map JObj ds)) ->
    snd (sql self application) = (out, None) ->
    length out
    = length ds * length (flat_map Node.rule_set (Ruleset.node_set self)).
Proof.
  intros self application ds out Hget.
  unfold Ruleset.sql, Ruleset.pop_applicants; rewrite Hget.
  cbv beta iota delta [snd fst Ruleset.iterate]; clear Hget.
  generalize (sremove "applicants" application); intros shared.
  revert out; induction ds as [| d ds IH]; intros out H.
  - injection H as <-; reflexivity.
  - change (Ruleset.sql_loop util_values_from_json self shared
                             (map JObj (d :: ds)))
      with (Py.gen_app
              (Ruleset.sql_of_applicant util_values_from_json
                                        self (supdate shared d))
              (Ruleset.sql_loop util_values_from_json self shared
                                (map JObj ds))) in H.
    assert (Hsnd : snd (Py.gen_app
                          (Ruleset.sql_of_applicant util_values_from_json
                                                    self (supdate shared d))
                          (Ruleset.sql_loop util_values_from_json self shared
                                            (map JObj ds)))
                   = None) by (rewrite H; reflexivity).
    apply gen_app_None in Hsnd; destruct Hsnd as [H1 [H2 Hfst]].
    rewrite H in Hfst; change (fst (out, @None exn)) with out in Hfst;
      subst out.
    rewrite length_app, (sql_of_applicant_length _ _ H1).
    rewrite (IH (fst (Ruleset.sql_loop util_values_from_json self shared
                                       (map JObj ds)))).
    + reflexivity.
    + destruct (Ruleset.sql_loop util_values_from_json self shared
                                 (map JObj ds)) as [l e].
      change (snd (l, e)) with e in H2; rewrite H2; reflexivity.
Qed.

End Sources.

Lemma null_sources_present_no_effect_witness :
  Ruleset.null_source_sql Sample.ruleset
                          [("household", JStr "h1"); ("id", JNum 7)]
  = []
  /\ Ruleset.values_from_json Sample.util_values_from_json Sample.ruleset
                              [("household", JStr "h1"); ("id", JNum 7)]
     = Ruleset.values_from_json Sample.util_values_from_json
                                (Derived.without_null_sources Sample.ruleset)
                                [("household", JStr "h1"); ("id", JNum 7)].
Proof.
  apply (@null_sources_present_no_effect Sample.util_values_from_json
           Sample.ruleset [("household", JStr "h1"); ("id", JNum 7)]).
  simpl; intros name [<- | []]; reflexivity.
Defined.

Lemma ruleset_sql_count_witness :
  length (fst (snd (Ruleset.sql Sample.util_values_from_json Sample.ruleset
                                Derived.twins)))
  = 2 * 2.
Proof.
  apply (@ruleset_sql_count Sample.util_values_from_json Sample.ruleset
           Derived.twins [Derived.ann; Derived.bob]); reflexivity.
Defined.

(** ** [SyntaxSchema.walk] *)

Lemma walk_falsy (fuel : nat) (code node : JSON) :
  json_truthy node = false ->
  SyntaxSchema.walk fuel code node = SyntaxSchema.walk fuel code code.
Proof.
  intros H; destruct fuel as [| fuel]; simpl; [reflexivity |].
  rewrite H; destruct (json_truthy code); reflexivity.
Qed.

Lemma walk_JObj (fuel : nat) (code : JSON) (kv : string * JSON)
      (d : list (string * JSON)) :
  SyntaxSchema.walk (S fuel) code (JObj (kv :: d))
  = Py.gen_app ([JObj (kv :: d)], None)
               (Py.gen_concat (map (Derived.walk_entry fuel code) (kv :: d))).
Proof. reflexivity. Qed.




Lemma has_empty_dict_JObj (d : list (string * JSON)) :
  Derived.has_empty_dict (JObj d)
  = existsb (fun kv => match snd kv with
                       | JObj [] => true
                       | JObj (_ :: _) => Derived.has_empty_dict (snd kv)
                       | _ => false
                       end) d.
Proof.
  induction d as [| [k x] d IH]; [reflexivity |].
  simpl in *; rewrite <- IH.
  destruct x as [| | | | | [| kv x]]; reflexivity.
Qed.




Lemma dicts_JObj (d : list (string * JSON)) :
  Derived.dicts (JObj d)
  = JObj d :: flat_map (fun kv => match snd kv with
                                  | JObj _ => Derived.dicts (snd kv)
                                  | _ => []
                                  end) d.
Proof.
  simpl; f_equal.
  induction d as [| [k x] d IH]; [reflexivity |].
  simpl; rewrite <- IH; destruct x; reflexivity.
Qed.

Lemma depth_entry (k : string) (x d : list (string * JSON)) :
  In (k, JObj x) d -> Derived.depth (JObj x) < Derived.depth (JObj d).
Proof.
  intros Hin.
  change (Derived.depth (JObj d))
    with (S ((fix deepest (l : list (string * JSON)) : nat :=
                match l with
                | [] => O
                | (_, y) :: l' =>
                    match y with
                    | JObj _ => Nat.max (Derived.depth y) (deepest l')
                    | _ => deepest l'
                    end
                end) d)).
  apply Nat.lt_succ_r.
  induction d as [| [k' y] d IH]; [contradiction |].
  destruct Hin as [E | Hin].
  - injection E as -> ->; apply Nat.le_max_l.
  - specialize (IH Hin); destruct y; try exact IH.
    etransitivity; [exact IH | apply Nat.le_max_r].
Qed.

Lemma no_empty_entry (k : string) (x d : list (string * JSON)) :
  Derived.has_empty_dict (JObj d) = false ->
  In (k, JObj x) d ->
  x <> [] /\ Derived.has_empty_dict (JObj x) = false.
Proof.
  rewrite has_empty_dict_JObj; intros Hd Hin.
  destruct x as [| kv x].
  - assert (existsb (fun kv => match snd kv with
                               | JObj [] => true
                               | JObj (_ :: _) =>
                                   Derived.has_empty_dict (snd kv)
                               | _ => false
                               end) d = true) as H
        by (apply existsb_exists; exists (k, JObj []); auto).
    rewrite H in Hd; discriminate.
  - split; [discriminate |].
    destruct (Derived.has_empty_dict (JObj (kv :: x))) eqn:E;
      [| reflexivity].
    assert (existsb (fun kv => match snd kv with
                               | JObj [] => true
                               | JObj (_ :: _) =>
                                   Derived.has_empty_dict (snd kv)
                               | _ => false
                               end) d = true) as H
        by (apply existsb_exists; exists (k, JObj (kv :: x)); auto).
    rewrite H in Hd; discriminate.
Qed.

Lemma dicts_walk_from (code : JSON) (fuel : nat) :
  forall d,
    d <> [] ->
    Derived.has_empty_dict (JObj d) = false ->
    Derived.depth (JObj d) <= fuel ->
    SyntaxSchema.walk fuel code (JObj d) = (Derived.dicts (JObj d), None).
Proof.
  induction fuel as [| fuel IH]; intros d Hne Hempty Hdepth.
  - simpl in Hdepth; lia.
  - destruct d as [| kv d]; [contradiction Hne; reflexivity |].
    rewrite walk_JObj, dicts_JObj.
    assert (G : forall l,
               incl l (kv :: d) ->
               Py.gen_concat (map (Derived.walk_entry fuel code) l)
               = (flat_map (fun kv => match snd kv with
                                      | JObj _ => Derived.dicts (snd kv)
                                      | _ => []
                                      end) l, None)).
    { induction l as [| [k x] l IHl]; intros Hincl; [reflexivity |].
      change (Py.gen_concat (map (Derived.walk_entry fuel code)
                                 ((k, x) :: l)))
        with (Py.gen_app (Derived.walk_entry fuel code (k, x))
                (Py.gen_concat (map (Derived.walk_entry fuel code) l))).
      rewrite IHl by (intros y Hy; apply Hincl; right; exact Hy).
      unfold Derived.walk_entry; simpl snd.
      destruct x as [| | | | | x]; try reflexivity.
      assert (Hin : In (k, JObj x) (kv :: d))
        by (apply Hincl; left; reflexivity).
      destruct (@no_empty_entry k x (kv :: d) Hempty Hin) as [Hx Hex].
      pose proof (@depth_entry k x (kv :: d) Hin) as Hlt.
      rewrite IH by (assumption || lia).
      reflexivity. }
    rewrite G by apply incl_refl; reflexivity.
Qed.

(** X13. For a schema document that is an object without empty object
    nested in it, [walk] (with a recursion bound of at least the nesting
    depth) yields, without exception, the document and the objects reached
    from it through entries whose value is an object, each before those
    below it; an entry whose value is a list is not entered. *)
Theorem walk_dicts :
  forall (fuel : nat) (self : SyntaxSchema.t) (c : list (string * JSON)),
    SyntaxSchema.code self = JObj c ->
    Derived.has_empty_dict (JObj c) = false ->
    Derived.depth (JObj c) <= fuel ->
    SyntaxSchema.walk fuel (SyntaxSchema.code self) JNull
    = (Derived.dicts (JObj c), None).
Proof.
  intros fuel self c Hcode Hempty Hdepth.
  rewrite walk_falsy by reflexivity.
  rewrite Hcode.
  destruct c as [| kv c].
  - destruct fuel as [| fuel]; [simpl in Hdepth; lia | reflexivity].
  - apply dicts_walk_from; [discriminate | exact Hempty | exact Hdepth].
Qed.

Lemma walk_dicts_witness :
  SyntaxSchema.walk 5 (SyntaxSchema.code Derived.nested_schema) JNull
  = (Derived.dicts (SyntaxSchema.code Derived.nested_schema), None).
Proof.
  apply (@walk_dicts 5 Derived.nested_schema
           match SyntaxSchema.code Derived.nested_schema with
           | JObj c => c
           | _ => []
           end).
  - reflexivity.
  - reflexivity.
  - simpl; lia.
Defined.

(** ** The type index of [data_types] *)

Lemma table_get_range (v : JSON) (ty : string) :
  SyntaxSchema.table_get v = OK (Some ty) -> In ty Derived.pg_types.
Proof.
  destruct v as [| b | z | s | l | d]; simpl; try discriminate.
  cbv [sget PyDict.get SyntaxSchema._JSONSCHEMA_TO_PG_TYPES].
  repeat match goal with
         | |- context [String.eqb ?a ?b] => destruct (String.eqb a b)
         end;
    intros H; try discriminate; injection H as <-; simpl; auto 10.
Qed.

Lemma col_data_type_range (col_data : JSON) (ty : string) :
  SyntaxSchema._col_data_type col_data = OK (Some ty) ->
  In ty Derived.pg_types.
Proof.
  destruct col_data as [| b | z | s | l | d]; simpl; try discriminate.
  destruct (SyntaxSchema.get_is "format" d "date-time");
    [intros H; injection H as <-; simpl; auto |].
  destruct (SyntaxSchema.get_is "$ref" d "#/definitions/ynexception");
    [intros H; injection H as <-; simpl; auto |].
  destruct (sget "type" d) as [v |]; [| apply table_get_range].
  destruct v as [| b | z | s | l | d']; try apply table_get_range.
  destruct ((1 <? length (filter (fun dt => negb (json_is_str dt "null"))
                                 l))%nat);
    [apply table_get_range |].
  destruct (filter (fun dt => negb (json_is_str dt "null")) l) as [| dt l'];
    [discriminate | apply table_get_range].
Qed.

Lemma pg_type_truthy (ty : string) :
  In ty Derived.pg_types -> SyntaxSchema.type_truthy (Some ty) = true.
Proof.
  simpl; intros H.
  repeat (destruct H as [<- | H]; [reflexivity |]); contradiction.
Qed.

Lemma columns_loop_typed (cols : list (string * JSON))
      (result r : sdict string) :
  SyntaxSchema.columns_loop cols result = OK r ->
  r = fold_left (fun acc kv => sset (fst kv) (snd kv) acc)
                (Derived.typed cols) result.
Proof.
  revert result; induction cols as [| [name col] cols IH]; simpl;
    intros result H.
  - injection H as <-; reflexivity.
  - destruct (SyntaxSchema._col_data_type col) as [[ty |] | e] eqn:E;
      simpl in H; try discriminate.
    + change (negb (String.eqb ty EmptyString))
        with (SyntaxSchema.type_truthy (Some ty)) in H.
      rewrite (pg_type_truthy (col_data_type_range _ E)) in H.
      simpl; apply IH; exact H.
    + apply IH; exact H.
Qed.

Lemma nodes_loop_typed (nodes : list JSON) (result r : sdict string) :
  SyntaxSchema.nodes_loop nodes result = OK r ->
  r = fold_left (fun acc kv => sset (fst kv) (snd kv) acc)
                (Derived.typed_columns nodes) result.
Proof.
  revert result; induction nodes as [| node nodes IH]; simpl;
    intros result H.
  - injection H as <-; reflexivity.
  - unfold Derived.columns.
    destruct (SyntaxSchema.properties node) as [cols | e]; simpl in H;
      [| discriminate].
    destruct (SyntaxSchema.columns_loop cols result) as [r' | e] eqn:E;
      simpl in H; [| discriminate].
    rewrite fold_left_app, <- (columns_loop_typed _ _ E).
    apply IH; exact H.
Qed.

Lemma data_types_typed (fuel : nat) (self : SyntaxSchema.t)
      (result : sdict string) :
  SyntaxSchema.data_types fuel self = OK result ->
  result
  = fold_left (fun acc kv => sset (fst kv) (snd kv) acc)
      (Derived.typed_columns
         (fst (SyntaxSchema.walk fuel (SyntaxSchema.code self) JNull)))
      [].
Proof.
  unfold SyntaxSchema.data_types; intros H.
  destruct (SyntaxSchema.nodes_loop
              (fst (SyntaxSchema.walk fuel (SyntaxSchema.code self) JNull))
              []) as [r |e] eqn:E; simpl in H; [| discriminate].
  destruct (snd (SyntaxSchema.walk fuel (SyntaxSchema.code self) JNull));
    [discriminate |].
  injection H as <-; apply nodes_loop_typed; exact E.
Qed.

Lemma typed_In (cols : list (string * JSON)) (name ty : string) :
  In (name, ty) (Derived.typed cols) ->
  exists col,
    In (name, col) cols /\ SyntaxSchema._col_data_type col = OK (Some ty).
Proof.
  induction cols as [| [n col] cols IH]; simpl; [contradiction |].
  destruct (SyntaxSchema._col_data_type col) as [[t |] | e] eqn:E.
  - intros [H | H].
    + injection H as -> ->; exists col; auto.
    + destruct (IH H) as [c [Hin Hc]]; exists c; auto.
  - intros H; destruct (IH H) as [c [Hin Hc]]; exists c; auto.
  - intros H; destruct (IH H) as [c [Hin Hc]]; exists c; auto.
Qed.

Lemma sget_In {V : Type} (k : string) (v : V) (d : sdict V) :
  sget k d = Some v -> In (k, v) d.
Proof.
  unfold sget; induction d as [| [k' v'] d IH]; simpl; [discriminate |].
  destruct (String.eqb_spec k k') as [<- | N].
  - intros H; injection H as <-; auto.
  - auto.
Qed.

(** X14. Every type in the index that [data_types] returns is one of
    [integer], [numeric], [text], [date] and [boolean]. *)
Theorem data_types_range :
  forall (fuel : nat) (self : SyntaxSchema.t) (result : sdict string),
    SyntaxSchema.data_types fuel self = OK result ->
    forall name ty,
      sget name result = Some ty ->
      In ty ["integer"; "numeric"; "text"; "date"; "boolean"].
Proof.
  intros fuel self result H name ty Hget.
  rewrite (data_types_typed _ _ H) in Hget.
  unfold sget, sset in Hget.
  rewrite (@get_fold_set _ _ _ String.eqb_spec) in Hget.
  simpl in Hget.
  destruct (PyDict.get String.eqb name
              (rev (Derived.typed_columns
                      (fst (SyntaxSchema.walk fuel (SyntaxSchema.code self)
                                              JNull))))) as [ty' |] eqn:E;
    [| discriminate].
  injection Hget as ->.
  apply sget_In, in_rev in E.
  unfold Derived.typed_columns in E; apply in_flat_map in E.
  destruct E as [node [_ Hin]].
  apply typed_In in Hin; destruct Hin as [col [_ Hcol]].
  exact (col_data_type_range _ Hcol).
Qed.

(** X15. In the index that [data_types] returns, a property name has the
    type of its last occurrence, in the order of the walk, that resolves to
    a type: a later occurrence replaces an earlier one, and an occurrence
    that resolves to no type leaves the entry as it is.  Each name is there
    once. *)
Theorem data_types_last_wins :
  forall (fuel : nat) (self : SyntaxSchema.t) (result : sdict string),
    SyntaxSchema.data_types fuel self = OK result ->
    swf result
    /\ forall name,
        sget name result
        = sget name
            (rev (Derived.typed_columns
                    (fst (SyntaxSchema.walk fuel (SyntaxSchema.code self)
                                            JNull)))).
Proof.
  intros fuel self result H.
  rewrite (data_types_typed _ _ H); split.
  - apply swf_NoDup.
    apply (@NoDup_keys_fold_set _ _ _ String.eqb_spec); constructor.
  - intros name; unfold sget, sset.
    rewrite (@get_fold_set _ _ _ String.eqb_spec); simpl.
    destruct (PyDict.get String.eqb name
                (rev (Derived.typed_columns
                        (fst (SyntaxSchema.walk fuel
                                (SyntaxSchema.code self) JNull)))));
      reflexivity.
Qed.

(** X16. A property whose type is a list holding nothing but [null] (or
    nothing at all), without date-time format and exception reference,
    makes [_col_data_type] raise [IndexError]. *)
Theorem col_data_type_null_only :
  forall (col_data : sdict JSON) (types : list JSON),
    SyntaxSchema.get_is "format" col_data "date-time" = false ->
    SyntaxSchema.get_is "$ref" col_data "#/definitions/ynexception" = false ->
    sget "type" col_data = Some (JList types) ->
    forallb (fun dt => json_is_str dt "null") types = true ->
    SyntaxSchema._col_data_type (JObj col_data) = Raise IndexError.
Proof.
  intros col_data types H1 H2 H3 Hall; simpl; rewrite H1, H2, H3.
  assert (E : filter (fun dt => negb (json_is_str dt "null")) types = []).
  { clear H3; induction types as [| dt types IH]; [reflexivity |].
    simpl in Hall; apply andb_true_iff in Hall; destruct Hall as [Hdt Hall].
    simpl; rewrite Hdt; simpl; apply IH; exact Hall. }
  rewrite E; reflexivity.
Qed.

Lemma data_types_range_witness :
  In "numeric" ["integer"; "numeric"; "text"; "date"; "boolean"].
Proof.
  apply (@data_types_range 10 Derived.nested_schema
           [("age", "numeric"); ("born", "date")] eq_refl "age" "numeric").
  reflexivity.
Defined.

Lemma data_types_last_wins_witness :
  swf [("age", "numeric"); ("born", "date")]
  /\ forall name,
      sget name [("age", "numeric"); ("born", "date")]
      = sget name
          (rev (Derived.typed_columns
                  (fst (SyntaxSchema.walk 10
                          (SyntaxSchema.code Derived.nested_schema)
                          JNull)))).
Proof.
  apply (@data_types_last_wins 10 Derived.nested_schema
           [("age", "numeric"); ("born", "date")]).
  reflexivity.
Defined.

Lemma col_data_type_null_only_witness :
  SyntaxSchema._col_data_type (JObj [("type", JList [JStr "null"])])
  = Raise IndexError.
Proof.
  apply (@col_data_type_null_only [("type", JList [JStr "null"])]
           [JStr "null"]); reflexivity.
Defined.
